(** * STC decoder ([stc/loading.py]): shallow embedding and verified properties

    The decoder turns a line-oriented text document into a nested value.
    This development embeds the Python functions [parse_key], [parse_value],
    [fill_in_value], [finalize_dict] and [loads] as Rocq functions and proves
    properties of them.

    Conventions of the embedding
    - A Python [str] is a Rocq [string]; a character is the code point
      [0..255] carried by [ascii] (the Latin-1 range of Unicode).  The character
      classes below are CPython's, restricted to that range.
    - A Python [int] is a [Z].  A Python [float] is kept as the exact decimal
      value of its literal ([pyfloat]); rounding to a double is not modelled.
    - A [dict] is an insertion-ordered association list.
    - A call either returns or raises: [result A].  In-place mutation of the
      [parsed] dictionary is written as state passing.
    - An object is given by what it holds: an argument when the call is made,
      a result when the call returns.  The two value objects of the enum
      [EmptyObject] are shared by every result and outlive a call; what they
      hold is the state a call runs in ([EMPTY_LIST_value],
      [EMPTY_DICT_value]), and every statement holds whatever that is. *)

From Stdlib Require Import String Ascii List ZArith NArith Bool Lia Permutation.
Import ListNotations.
Open Scope string_scope.

(* ================================================================= *)
(** ** Python's string built-ins used by the decoder *)

Module PyStr.

Definition ord (c : ascii) : N := N_of_ascii c.

Definition in_range (lo hi : N) (c : ascii) : bool :=
  (lo <=? ord c)%N && (ord c <=? hi)%N.

(** [str.isspace] on one character: what [strip] and [rstrip] remove. *)
Definition isspace (c : ascii) : bool :=
  in_range 9 13 c || in_range 28 32 c || (ord c =? 133)%N || (ord c =? 160)%N.

Definition isdigit (c : ascii) : bool := in_range 48 57 c.

Definition digit_value (c : ascii) : N := (ord c - 48)%N.

Definition isalpha_ascii (c : ascii) : bool :=
  in_range 65 90 c || in_range 97 122 c.

(** Unicode [XID_Start] and [XID_Continue] below U+0100. *)
Definition is_xid_start (c : ascii) : bool :=
  isalpha_ascii c || (ord c =? 170)%N || (ord c =? 181)%N || (ord c =? 186)%N
  || in_range 192 214 c || in_range 216 246 c || in_range 248 255 c.

Definition is_xid_continue (c : ascii) : bool :=
  is_xid_start c || isdigit c || (ord c =? 95)%N || (ord c =? 183)%N.

(** Characters with a Unicode numeric value below U+0100. *)
Definition isnumeric_char (c : ascii) : bool :=
  isdigit c || (ord c =? 178)%N || (ord c =? 179)%N || (ord c =? 185)%N
  || in_range 188 190 c.

Fixpoint all_chars (p : ascii -> bool) (s : string) : bool :=
  match s with
  | EmptyString => true
  | String c s' => p c && all_chars p s'
  end.

(** [s.isidentifier()] *)
Definition isidentifier (s : string) : bool :=
  match s with
  | EmptyString => false
  | String c s' =>
      (is_xid_start c || (ord c =? 95)%N) && all_chars is_xid_continue s'
  end.

(** [s.isnumeric()] *)
Definition isnumeric (s : string) : bool :=
  match s with
  | EmptyString => false
  | _ => all_chars isnumeric_char s
  end.

(** [s.lstrip(chars)] / [s.rstrip(chars)] for a character class [p]. *)
Fixpoint lstrip_by (p : ascii -> bool) (s : string) : string :=
  match s with
  | EmptyString => EmptyString
  | String c s' => if p c then lstrip_by p s' else s
  end.

Fixpoint rstrip_by (p : ascii -> bool) (s : string) : string :=
  match s with
  | EmptyString => EmptyString
  | String c s' =>
      match rstrip_by p s' with
      | EmptyString => if p c then EmptyString else String c EmptyString
      | r => String c r
      end
  end.

Definition lstrip (s : string) : string := lstrip_by isspace s.
Definition rstrip (s : string) : string := rstrip_by isspace s.
Definition strip (s : string) : string := rstrip (lstrip s).

(** [s.lstrip(c)] for a one-character argument. *)
Definition lstrip_char (ch : ascii) (s : string) : string :=
  lstrip_by (Ascii.eqb ch) s.

(** [s.startswith(p)] *)
Definition startswith (p s : string) : bool := String.prefix p s.

(** [s.partition(sep)] when [sep] occurs: the text before and after its
    first occurrence; [None] when [sep] does not occur. *)
Fixpoint partition (sep : ascii) (s : string) : option (string * string) :=
  match s with
  | EmptyString => None
  | String c s' =>
      if Ascii.eqb c sep then Some (EmptyString, s')
      else match partition sep s' with
           | Some (a, b) => Some (String c a, b)
           | None => None
           end
  end.

(** [sep in s] *)
Definition contains (sep : ascii) (s : string) : bool :=
  match partition sep s with Some _ => true | None => false end.

(** [s.split(sep)] for a one-character separator. *)
Fixpoint split (sep : ascii) (s : string) : list string :=
  match s with
  | EmptyString => [EmptyString]
  | String c s' =>
      if Ascii.eqb c sep then EmptyString :: split sep s'
      else match split sep s' with
           | h :: t => String c h :: t
           | [] => [String c EmptyString]
           end
  end.

(** [s.split(sep, 1)] *)
Definition split1 (sep : ascii) (s : string) : list string :=
  match partition sep s with
  | Some (a, b) => [a; b]
  | None => [s]
  end.

(** [sep.join(l)] *)
Fixpoint join (sep : string) (l : list string) : string :=
  match l with
  | [] => EmptyString
  | [x] => x
  | x :: l' => x ++ sep ++ join sep l'
  end.

(** [c * n] *)
Fixpoint repeat_char (c : ascii) (n : nat) : string :=
  match n with
  | O => EmptyString
  | S n' => String c (repeat_char c n')
  end.

(** [s[1:]] *)
Definition tail (s : string) : string :=
  match s with
  | EmptyString => EmptyString
  | String _ s' => s'
  end.

(** [s[:-1]] *)
Fixpoint drop_last (s : string) : string :=
  match s with
  | EmptyString => EmptyString
  | String c EmptyString => EmptyString
  | String c s' => String c (drop_last s')
  end.

Definition backtick : ascii := "`"%char.
Definition newline : ascii := "010"%char.
Definition nl : string := String newline EmptyString.

End PyStr.

(* ================================================================= *)
(** ** Python's [int(str)] and [float(str)] *)

Module PyNum.
Import PyStr.

(** The exact value a float literal denotes.  [FDec neg m e] stands for
    [(-1)^neg * m * 10^e] rounded to a double (an infinity when it
    overflows). *)
Inductive pyfloat : Type :=
| FInf (neg : bool)
| FNan (neg : bool)
| FDec (neg : bool) (mantissa : N) (exp10 : Z).

(** Whitespace that the number constructors skip at both ends: C's
    [isspace] on ASCII, plus the two Latin-1 spaces that CPython first
    rewrites to a blank. *)
Definition is_num_space (c : ascii) : bool :=
  in_range 9 13 c || (ord c =? 32)%N || (ord c =? 133)%N || (ord c =? 160)%N.

Definition num_strip (s : string) : string :=
  rstrip_by is_num_space (lstrip_by is_num_space s).

(** CPython's cap on the number of digits of an integer given as text
    ([sys.get_int_max_str_digits()], 4300 unless reconfigured; [0] would
    lift it). *)
Definition int_max_str_digits : N := 4300.

(** Digits with single underscores between them: the value and the number
    of digits read.  [prev_digit] tells whether the previous character was a
    digit. *)
Fixpoint int_digits (acc digits : N) (prev_digit : bool) (s : string)
  : option (N * N) :=
  match s with
  | EmptyString => if prev_digit then Some (acc, digits) else None
  | String c s' =>
      if isdigit c then
        int_digits (10 * acc + digit_value c) (digits + 1) true s'
      else if Ascii.eqb c "_" && prev_digit then int_digits acc digits false s'
      else None
  end.

Definition int_body (s : string) : option N :=
  match s with
  | String c s' =>
      if isdigit c then
        match int_digits (digit_value c) 1 true s' with
        | Some (n, digits) =>
            if (0 <? int_max_str_digits)%N && (int_max_str_digits <? digits)%N
            then None
            else Some n
        | None => None
        end
      else None
  | EmptyString => None
  end.

(** [int(s)]: [None] stands for [ValueError]. *)
Definition int (s : string) : option Z :=
  match num_strip s with
  | String "+" r => option_map Z.of_N (int_body r)
  | String "-" r => option_map (fun n => (- Z.of_N n)%Z) (int_body r)
  | t => option_map Z.of_N (int_body t)
  end.

(** Underscores of a float token are dropped when each one stands between
    two digits; [prev] is the previous character (NUL at the start). *)
Fixpoint drop_underscores (prev : ascii) (s : string) : option string :=
  match s with
  | EmptyString => if Ascii.eqb prev "_" then None else Some EmptyString
  | String c s' =>
      if Ascii.eqb c "_" then
        if isdigit prev then drop_underscores c s' else None
      else if Ascii.eqb prev "_" && negb (isdigit c) then None
      else option_map (String c) (drop_underscores c s')
  end.

(** A run of decimal digits: its value, its length, and what follows. *)
Fixpoint digit_run (acc : N) (len : nat) (s : string) : N * nat * string :=
  match s with
  | String c s' =>
      if isdigit c then digit_run (10 * acc + digit_value c) (S len) s'
      else (acc, len, s)
  | EmptyString => (acc, len, s)
  end.

Definition lower (c : ascii) : ascii :=
  if in_range 65 90 c then ascii_of_N (ord c + 32) else c.

Fixpoint lower_string (s : string) : string :=
  match s with
  | EmptyString => EmptyString
  | String c s' => String (lower c) (lower_string s')
  end.

(** The exponent part: empty, or [e]/[E], an optional sign and digits. *)
Definition float_exponent (s : string) : option Z :=
  match s with
  | EmptyString => Some 0%Z
  | String c r =>
      if Ascii.eqb (lower c) "e" then
        let '(neg, d) :=
          match r with
          | String "+" d => (false, d)
          | String "-" d => (true, d)
          | _ => (false, r)
          end in
        match digit_run 0 0 d with
        | (_, O, _) => None
        | (e, _, EmptyString) => Some (if neg then (- Z.of_N e)%Z else Z.of_N e)
        | _ => None
        end
      else None
  end.

(** Unsigned decimal: digits, an optional point and digits, at least one
    digit in all, then the exponent part. *)
Definition float_decimal (neg : bool) (s : string) : option pyfloat :=
  let '(ip, ilen, r1) := digit_run 0 0 s in
  let '(m, flen, r2) :=
    match r1 with
    | String "." r => let '(m, flen, r2) := digit_run ip 0 r in (m, flen, r2)
    | _ => (ip, O, r1)
    end in
  match (ilen + flen)%nat with
  | O => None
  | _ => match float_exponent r2 with
         | Some e => Some (FDec neg m (e - Z.of_nat flen))
         | None => None
         end
  end.

Definition float_signed (s : string) : bool * string :=
  match s with
  | String "+" r => (false, r)
  | String "-" r => (true, r)
  | _ => (false, s)
  end.

Definition float_inf_or_nan (neg : bool) (s : string) : option pyfloat :=
  let l := lower_string s in
  if String.eqb l "inf" || String.eqb l "infinity" then Some (FInf neg)
  else if String.eqb l "nan" then Some (FNan neg)
  else None.

(** [float(s)]: [None] stands for [ValueError]. *)
Definition float (s : string) : option pyfloat :=
  match drop_underscores zero (num_strip s) with
  | None => None
  | Some t =>
      let '(neg, body) := float_signed t in
      match float_decimal neg body with
      | Some f => Some f
      | None => float_inf_or_nan neg body
      end
  end.

End PyNum.

(* ================================================================= *)
(** ** Values, exceptions and results *)

(** [class EmptyObject(Enum)]: markers for an explicitly empty container. *)
Inductive EmptyObject : Type :=
| EMPTY_LIST
| EMPTY_DICT.

#[local] Set Warnings "-register-all".

(** The Python objects the decoder builds.  A [VDict] keeps its items in
    insertion order. *)
Inductive pyobj : Type :=
| VNone
| VBool (b : bool)
| VInt (z : Z)
| VFloat (f : PyNum.pyfloat)
| VStr (s : string)
| VEmpty (e : EmptyObject)
| VList (l : list pyobj)
| VDict (d : list (string * pyobj)).

Definition dict : Type := list (string * pyobj).

(** The messages of [STCParseError], one constructor per message text, named
    after the error kind it reports. *)
Inductive parse_error : Type :=
| InvalidKeySegment_identifier (key : string)
    (* "Invalid key: {key}. Key must be a valid identifier." *)
| InvalidKeySegment_index (key : string)
    (* "Invalid key: {key}. List index must be $numeric." *)
| InvalidKeySegment_negative (key : string)
    (* "Negative list index in key: {key}." *)
| InvalidValueLiteral (value : string)
    (* "Invalid value: {value}. Value must be: ..." *)
| ConflictingContainerAndLeaf (key : string)
    (* "Key `{key}` is set both a value and at least one list item / dict attribute." *)
| ConflictingContainerAndLeaf_direct (key : string)
    (* "Key `{key}` is set both a value directly and at least one list item / dict attribute." *)
| DuplicateLeafAssignment (key : string) (old new : pyobj)
    (* "Key `{key}` is set at least two values {old} | {new}." *)
| MixedListDictKeys (prefix : string)
    (* "{prefix} is set both as a list and a dict." *)
| ListGapOrDuplicate (prefix : string)
    (* "{prefix} is set as a list, but not all indices are present." *)
| MissingColon (line : string)
    (* "Line {n} missing `:`. Line content:\n {line}" *)
| MalformedEmptyStringBlock
    (* "Empty string block should be formated as ..." *)
| UnterminatedStringBlock.
    (* "Unclosed string block starting at line {n}." *)

(** Exceptions a call can raise.  [STCParseError] carries the message and the
    line number it mentions, if any. *)
Inductive exn : Type :=
| STCParseError (e : parse_error) (ln : option nat)
| NotImplementedError (msg : string)
| UnboundLocalError (var : string)
| KeyError (key : string)
| ValueError
| IndexError
| TypeError.

Inductive result (A : Type) : Type :=
| Return (a : A)
| Raise (e : exn).

Arguments Return {A} a.
Arguments Raise {A} e.

Definition bind {A B : Type} (m : result A) (k : A -> result B) : result B :=
  match m with
  | Return a => k a
  | Raise e => Raise e
  end.

Notation "x <- m ;; k" := (bind m (fun x => k))
  (at level 61, m at next level, right associativity).

(** [raise_parse_error(message, ln)] *)
Definition raise_parse_error {A : Type} (message : parse_error) (ln : option nat)
  : result A :=
  Raise (STCParseError message ln).

(** [s[0]] *)
Definition first_char (s : string) : result ascii :=
  match s with
  | EmptyString => Raise IndexError
  | String c _ => Return c
  end.

(** [int(s)] as a call that may raise. *)
Definition int_of_str (s : string) : result Z :=
  match PyNum.int s with
  | Some z => Return z
  | None => Raise ValueError
  end.

(* ----------------------------------------------------------------- *)
(** *** Dictionaries *)

(** [d.get(k)], [None] when [k not in d]. *)
Fixpoint dict_get (k : string) (d : dict) : option pyobj :=
  match d with
  | [] => None
  | (k', v) :: d' => if String.eqb k k' then Some v else dict_get k d'
  end.

(** [d[k] = v]: an existing key keeps its position, a new one goes last. *)
Fixpoint dict_set (k : string) (v : pyobj) (d : dict) : dict :=
  match d with
  | [] => [(k, v)]
  | (k', v') :: d' =>
      if String.eqb k k' then (k', v) :: d' else (k', v') :: dict_set k v d'
  end.

(** [list(d.keys())] *)
Definition keys (d : dict) : list string := map fst d.

(** [isinstance(v, dict)] *)
Definition is_dict (v : pyobj) : bool :=
  match v with VDict _ => true | _ => false end.

(* ----------------------------------------------------------------- *)
(** *** The values of the enum members *)

(** [EMPTY_LIST = []] and [EMPTY_DICT = {}] create one list and one
    dictionary when the class is defined, and [e.value] is that very object
    every time: all results share the two.  No function of the module
    changes them, but they are mutable, and a caller who changes what a
    result holds at an empty container changes them for every result, past
    and future.  They are therefore part of the state a call runs in, given
    here by what the two objects hold when the call is made; they start
    empty. *)
Section EnumValues.

Variable EMPTY_LIST_value : list pyobj.
Variable EMPTY_DICT_value : dict.

(** [e.value] of an [EmptyObject] member: the shared object, with what it
    holds. *)
Definition EmptyObject_value (e : EmptyObject) : pyobj :=
  match e with
  | EMPTY_LIST => VList EMPTY_LIST_value
  | EMPTY_DICT => VDict EMPTY_DICT_value
  end.

(* ================================================================= *)
(** ** [parse_key] *)

(** The checks of the loop body on one piece. *)
Definition check_piece (key : string) (ln : option nat) (piece : string)
  : result unit :=
  if negb (PyStr.isidentifier piece) then
    raise_parse_error (InvalidKeySegment_identifier key) ln
  else
    c <- first_char piece ;;
    if Ascii.eqb c "$" then
      if negb (PyStr.isnumeric (PyStr.tail piece)) then
        raise_parse_error (InvalidKeySegment_index key) ln
      else
        i <- int_of_str (PyStr.tail piece) ;;
        if (i <? 0)%Z then raise_parse_error (InvalidKeySegment_negative key) ln
        else Return tt
    else Return tt.

Fixpoint parse_key_loop (key : string) (ln : option nat) (pieces : list string)
  : result (list string) :=
  match pieces with
  | [] => Return []
  | piece :: rest =>
      _ <- check_piece key ln piece ;;
      path <- parse_key_loop key ln rest ;;
      Return (piece :: path)
  end.

Definition parse_key (key : string) (ln : option nat) : result (list string) :=
  parse_key_loop key ln (PyStr.split "." key).

(* ================================================================= *)
(** ** [parse_value] *)

(** The pair [(value, is_string)]; for a string-block start the first
    component is the number of backticks. *)
Definition parse_value (value : string) (ln : option nat) : result (pyobj * bool) :=
  if String.eqb value "`true`" then Return (VBool true, false)
  else if String.eqb value "`false`" then Return (VBool false, false)
  else if String.eqb value "[]" then Return (VEmpty EMPTY_LIST, false)
  else if String.eqb value "{}" then Return (VEmpty EMPTY_DICT, false)
  else
    match PyNum.int value with
    | Some z => Return (VInt z, false)
    | None =>
        match PyNum.float value with
        | Some f => Return (VFloat f, false)
        | None =>
            if negb (PyStr.startswith "```" value) then
              raise_parse_error (InvalidValueLiteral value) ln
            else
              let bt_count :=
                (Z.of_nat (String.length value)
                 - Z.of_nat (String.length (PyStr.lstrip_char PyStr.backtick value)))%Z in
              Return (VInt bt_count, true)
        end
    end.

(* ================================================================= *)
(** ** [fill_in_value] *)

(** The [for i, piece in enumerate(path[:-1])] loop followed by the code
    after it.  [rest] is what is left of [path[:-1]], [i] the index of its
    head, [piece] the loop variable as last bound ([None] before the first
    iteration), [current] the dictionary reached.  The result is [current]
    after the update. *)
Fixpoint fill_in_from (path : list string) (value : pyobj)
    (i : nat) (rest : list string) (piece : option string) (current : dict)
  : result dict :=
  match rest with
  | p :: rest' =>
      match dict_get p current with
      | None =>
          sub <- fill_in_from path value (S i) rest' (Some p) [] ;;
          Return (dict_set p (VDict sub) current)
      | Some (VDict child) =>
          sub <- fill_in_from path value (S i) rest' (Some p) child ;;
          Return (dict_set p (VDict sub) current)
      | Some _ =>
          raise_parse_error
            (ConflictingContainerAndLeaf (PyStr.join "." (firstn (S i) path))) None
      end
  | [] =>
      match rev path with
      | [] => Raise IndexError
      | last_piece :: _ =>
          match dict_get last_piece current with
          | Some (VDict _) =>
              raise_parse_error
                (ConflictingContainerAndLeaf_direct (PyStr.join "." path)) None
          | Some _ =>
              match piece with
              | None => Raise (UnboundLocalError "piece")
              | Some p =>
                  match dict_get p current with
                  | None => Raise (KeyError p)
                  | Some old =>
                      raise_parse_error
                        (DuplicateLeafAssignment (PyStr.join "." path) old value) None
                  end
              end
          | None => Return (dict_set last_piece value current)
          end
      end
  end.

Definition fill_in_value (path : list string) (value : pyobj) (parsed : dict)
  : result dict :=
  fill_in_from path value 0 (removelast path) None parsed.

(* ================================================================= *)
(** ** [finalize_dict] *)

(** [any(p(key[0]) for key in keys)] *)
Fixpoint any_first_char (p : ascii -> bool) (ks : list string) : result bool :=
  match ks with
  | [] => Return false
  | k :: ks' =>
      c <- first_char k ;;
      if p c then Return true else any_first_char p ks'
  end.

(** [[int(key[1:]) for key in keys]] *)
Fixpoint indices_of (ks : list string) : result (list Z) :=
  match ks with
  | [] => Return []
  | k :: ks' =>
      i <- int_of_str (PyStr.tail k) ;;
      rest <- indices_of ks' ;;
      Return (i :: rest)
  end.

Definition list_min (l : list Z) : Z :=
  match l with [] => 0%Z | x :: l' => fold_left Z.min l' x end.

Definition list_max (l : list Z) : Z :=
  match l with [] => 0%Z | x :: l' => fold_left Z.max l' x end.

Fixpoint set_nth (l : list pyobj) (n : nat) (x : pyobj) : list pyobj :=
  match l, n with
  | [], _ => []
  | _ :: l', O => x :: l'
  | y :: l', S n' => y :: set_nth l' n' x
  end.

(** [l[index] = x]; a negative index counts from the end. *)
Definition list_setitem (l : list pyobj) (index : Z) (x : pyobj)
  : result (list pyobj) :=
  let n := Z.of_nat (length l) in
  let i := if (index <? 0)%Z then (index + n)%Z else index in
  if ((0 <=? i) && (i <? n))%Z then Return (set_nth l (Z.to_nat i) x)
  else Raise IndexError.

Definition child_prefix (prefix key : string) : string :=
  match prefix with
  | EmptyString => key
  | _ => prefix ++ "." ++ key
  end.

(** [finalize v prefix] is [finalize_dict(d, prefix)] when [v] is the
    dictionary [d]; the recursion is on the nesting of dictionaries. *)
Fixpoint finalize (v : pyobj) (prefix : string) {struct v} : result pyobj :=
  match v with
  | VDict d =>
      match d with
      | [] => Return (VDict d)
      | (k0, _) :: _ =>
          c0 <- first_char k0 ;;
          if Ascii.eqb c0 "$" then
            mixed <- any_first_char (fun c => negb (Ascii.eqb c "$")) (keys d) ;;
            if mixed then raise_parse_error (MixedListDictKeys prefix) None
            else
              all_indices <- indices_of (keys d) ;;
              if negb (list_min all_indices =? 0)%Z
                 || negb (list_max all_indices =? Z.of_nat (length all_indices) - 1)%Z
              then raise_parse_error (ListGapOrDuplicate prefix) None
              else
                list_data <-
                  (fix fill (items : list (string * pyobj)) (list_data : list pyobj)
                     : result (list pyobj) :=
                     match items with
                     | [] => Return list_data
                     | (key, x) :: items' =>
                         index <- int_of_str (PyStr.tail key) ;;
                         y <- match x with
                              | VDict _ => finalize x (child_prefix prefix key)
                              | VEmpty e => Return (EmptyObject_value e)
                              | _ => Return x
                              end ;;
                         list_data' <- list_setitem list_data index y ;;
                         fill items' list_data'
                     end) d (repeat VNone (length all_indices)) ;;
                Return (VList list_data)
          else
            mixed <- any_first_char (fun c => Ascii.eqb c "$") (keys d) ;;
            if mixed then raise_parse_error (MixedListDictKeys prefix) None
            else
              d' <-
                (fix each (items : list (string * pyobj)) : result dict :=
                   match items with
                   | [] => Return []
                   | (key, x) :: items' =>
                       y <- match x with
                            | VDict _ => finalize x (child_prefix prefix key)
                            | VEmpty e => Return (EmptyObject_value e)
                            | _ => Return x
                            end ;;
                       rest <- each items' ;;
                       Return ((key, y) :: rest)
                   end) d ;;
              Return (VDict d')
      end
  | _ => Return v
  end.

Definition finalize_dict (d : dict) (prefix : string) : result pyobj :=
  finalize (VDict d) prefix.

(* ================================================================= *)
(** ** [loads] *)

(** The local variables of [loads] that live across loop iterations. *)
Record scan : Type := mkScan {
  in_a_string : bool;
  string_value : string;
  bt_count : pyobj;
  string_key_path : option (list string);
  parsed : dict
}.

Definition initial_scan : scan :=
  {| in_a_string := false;
     string_value := "";
     bt_count := VInt (-1);
     string_key_path := None;
     parsed := [] |}.

(** ["`" * n] *)
Definition backticks (n : nat) : string := PyStr.repeat_char PyStr.backtick n.

(** ["`" * bt_count] for the object held in [bt_count]. *)
Definition fence_of (bt_count : pyobj) : result string :=
  match bt_count with
  | VInt n => Return (backticks (Z.to_nat n))
  | VBool b => Return (backticks (if b then 1 else 0))
  | _ => Raise TypeError
  end.

(** The state after [fill_in_value] has updated [parsed] in place. *)
Definition set_parsed (st : scan) (parsed' : dict) : scan :=
  {| in_a_string := st.(in_a_string);
     string_value := st.(string_value);
     bt_count := st.(bt_count);
     string_key_path := st.(string_key_path);
     parsed := parsed' |}.

(** The normal-mode work on a line once it is split at its first colon:
    from [key = key.strip()] to the end of the branch. *)
Definition assign (line_num : nat) (key value : string) (st : scan) : result scan :=
  let key := PyStr.strip key in
  parsed_key_path <- parse_key key (Some (line_num + 1)) ;;
  let value := PyStr.strip value in
  pv <- parse_value value (Some (line_num + 1)) ;;
  let '(parsed_value, is_string) := pv in
  if is_string : bool then
    Return {| in_a_string := true;
              string_value := "";
              bt_count := parsed_value;
              string_key_path := Some parsed_key_path;
              parsed := st.(parsed) |}
  else
    parsed' <- fill_in_value parsed_key_path parsed_value st.(parsed) ;;
    Return (set_parsed st parsed').

(** One iteration of [for line_num, line in enumerate(lines)]. *)
Definition loads_line (line_num : nat) (line : string) (st : scan) : result scan :=
  if negb st.(in_a_string) then
    if String.eqb (PyStr.strip line) "" then Return st
    else if negb (PyStr.contains ":" line) then
      Raise (STCParseError (MissingColon line) (Some (line_num + 1)))
    else
      match PyStr.split1 ":" line with
      | [key; value] => assign line_num key value st
      | _ => Raise ValueError
      end
  else
    fence <- fence_of st.(bt_count) ;;
    if String.eqb (PyStr.rstrip line) fence then
      if (String.length st.(string_value) =? 0)%nat then
        Raise (STCParseError MalformedEmptyStringBlock (Some (line_num + 1)))
      else
        let string_value := PyStr.drop_last st.(string_value) in
        path <- match st.(string_key_path) with
                | Some p => Return p
                | None => Raise TypeError
                end ;;
        parsed' <- fill_in_value path (VStr string_value) st.(parsed) ;;
        Return {| in_a_string := false;
                  string_value := "";
                  bt_count := VInt (-1);
                  string_key_path := None;
                  parsed := parsed' |}
    else
      Return {| in_a_string := st.(in_a_string);
                string_value := st.(string_value) ++ line ++ PyStr.nl;
                bt_count := st.(bt_count);
                string_key_path := st.(string_key_path);
                parsed := st.(parsed) |}.

Fixpoint loads_loop (line_num : nat) (lines : list string) (st : scan)
  : result scan :=
  match lines with
  | [] => Return st
  | line :: lines' =>
      st' <- loads_line line_num line st ;;
      loads_loop (S line_num) lines' st'
  end.

(** The Python implementation: the body of [loads] after the [impl] test. *)
Definition loads_python (stc_str : string) : result pyobj :=
  if String.eqb (PyStr.strip stc_str) "{}" then Return (VDict [])
  else
    let lines := PyStr.split PyStr.newline stc_str in
    st <- loads_loop 0 lines initial_scan ;;
    if st.(in_a_string) then
      Raise (STCParseError UnterminatedStringBlock (Some (length lines)))
    else finalize_dict st.(parsed) "".

Section Loads.

(** The optional [stc_rust] extension module: [rust_loads] is [None] when
    its import fails. *)
Variable rust_loads : option (string -> result pyobj).

Definition loads (stc_str : string) (impl : string) : result pyobj :=
  if String.eqb impl "rust" then
    match rust_loads with
    | Some f => f stc_str
    | None => Raise (NotImplementedError "Rust implementation is not available.")
    end
  else loads_python stc_str.

(** [loads(stc_str)] with the default [impl='rust']. *)
Definition loads_default (stc_str : string) : result pyobj :=
  loads stc_str "rust".

(** [load(fp)], for a file object whose [read()] returns [contents]. *)
Definition load (contents : string) : result pyobj :=
  loads_default contents.

End Loads.

(** A document given by its lines: ["\n".join(lines)]. *)
Definition document (lines : list string) : string := PyStr.join PyStr.nl lines.

(* ================================================================= *)
(** ** Vocabulary of the properties *)

(** A line made of backticks only. *)
Definition backtick_only (line : string) : bool :=
  PyStr.all_chars (Ascii.eqb PyStr.backtick) line.

(** The lines of a string-block content. *)
Definition content_lines (C : string) : list string := PyStr.split PyStr.newline C.

(** A string block for key [a]: opening fence of [f] backticks, the content,
    closing fence. *)
Definition fenced (f : nat) (C : string) : string :=
  "a: " ++ backticks f ++ PyStr.nl ++ C ++ PyStr.nl ++ backticks f.

(** Putting the separator back after every piece gives the text followed
    by one separator. *)
Fixpoint unlines (ls : list string) : string :=
  match ls with
  | [] => ""
  | l :: ls' => l ++ PyStr.nl ++ unlines ls'
  end.

(** Character [c] does not occur in [s]. *)
Definition lacks (c : ascii) (s : string) : Prop := PyStr.contains c s = false.

(** The scan state inside a string block opened with [f] backticks for the
    key path [path], with [acc] accumulated so far. *)
Definition in_block (f : nat) (acc : string) (path : list string) (parsed : dict)
  : scan :=
  {| in_a_string := true;
     string_value := acc;
     bt_count := VInt (Z.of_nat f);
     string_key_path := Some path;
     parsed := parsed |}.

(** The scan state between assignments. *)
Definition between (parsed : dict) : scan :=
  {| in_a_string := false;
     string_value := "";
     bt_count := VInt (-1);
     string_key_path := None;
     parsed := parsed |}.

(** The object reached from [v] by following [path] through nested
    dictionaries. *)
Fixpoint lookup (path : list string) (v : pyobj) : option pyobj :=
  match path with
  | [] => Some v
  | k :: rest =>
      match v with
      | VDict d =>
          match dict_get k d with
          | Some x => lookup rest x
          | None => None
          end
      | _ => None
      end
  end.

(** Path [path] holds the leaf [x] in [parsed]. *)
Definition leaf_at (path : list string) (x : pyobj) (parsed : dict) : Prop :=
  lookup path (VDict parsed) = Some x /\ is_dict x = false.

(** Path [path] holds a dictionary in [parsed]. *)
Definition container_at (path : list string) (parsed : dict) : Prop :=
  exists d, lookup path (VDict parsed) = Some (VDict d).

(** What an object of the intermediate tree may become when later
    assignments succeed: a leaf stays as it is, a dictionary stays a
    dictionary. *)
Definition persists (x x' : pyobj) : Prop :=
  if is_dict x then is_dict x' = true else x' = x.

(** A key path whose segments are identifiers, and its dotted text. *)
Definition identifier_path (path : list string) : Prop :=
  path <> [] /\ Forall (fun piece => PyStr.isidentifier piece = true) path.

Definition key_text (path : list string) : string := PyStr.join "." path.

(** The text [v] after the colon is a value token that [parse_value] reads as
    the finished value [x]. *)
Definition scalar_token (v : string) (x : pyobj) : Prop :=
  lacks PyStr.newline v /\
  forall ln, parse_value (PyStr.strip v) ln = Return (x, false).

(** The line [key:value] for a key path. *)
Definition assignment (path : list string) (v : string) : string :=
  key_text path ++ ":" ++ v.

(** [assigns lines path x]: [lines] are the lines of one assignment of the
    value [x] to the key path [path], as the Python implementation reads
    them.  Either one line with a scalar token, or a string block: the
    opening line (white space [pad], a fence of [f >= 3] backticks, ignored
    text [extra]), the content lines, none of which closes the block, and
    the closing fence. *)
Inductive assigns : list string -> list string -> pyobj -> Prop :=
| assigns_scalar (path : list string) (v : string) (x : pyobj) :
    identifier_path path -> scalar_token v x ->
    assigns [assignment path v] path x
| assigns_block (path : list string) (f : nat) (pad extra C : string) :
    identifier_path path -> 3 <= f ->
    PyStr.all_chars PyStr.isspace pad = true -> lacks PyStr.newline pad ->
    PyStr.startswith "`" extra = false -> lacks PyStr.newline extra ->
    (forall l, In l (content_lines C) -> PyStr.rstrip l <> backticks f) ->
    assigns (assignment path (pad ++ backticks f ++ extra)
               :: (content_lines C ++ [backticks f])%list)
            path (VStr C).

(** The scanner accepts [lines] and is between assignments after them. *)
Definition accepted (lines : list string) : Prop :=
  exists st, loads_loop 0 lines initial_scan = Return st /\ in_a_string st = false.

(** The characters of a dotted key of identifiers. *)
Definition key_char (c : ascii) : bool :=
  PyStr.is_xid_continue c || Ascii.eqb c ".".


(** What [finalize_dict] stores for the child [x] found under [key]: a
    dictionary is finalized under the extended prefix, an empty marker gives
    its value, anything else is kept. *)
Definition finalize_child (prefix key : string) (x : pyobj) : result pyobj :=
  match x with
  | VDict _ => finalize x (child_prefix prefix key)
  | VEmpty e => Return (EmptyObject_value e)
  | _ => Return x
  end.

(** The [for key in keys] loop of the list branch of [finalize_dict], from
    the items still to visit and the list built so far. *)
Fixpoint fill_list (prefix : string) (items : list (string * pyobj))
    (list_data : list pyobj) : result (list pyobj) :=
  match items with
  | [] => Return list_data
  | (key, x) :: items' =>
      index <- int_of_str (PyStr.tail key) ;;
      y <- finalize_child prefix key x ;;
      list_data' <- list_setitem list_data index y ;;
      fill_list prefix items' list_data'
  end.

(** The [for key, value in d.items()] loop of the dict branch of
    [finalize_dict]. *)
Fixpoint each_item (prefix : string) (items : list (string * pyobj)) : result dict :=
  match items with
  | [] => Return []
  | (key, x) :: items' =>
      y <- finalize_child prefix key x ;;
      rest <- each_item prefix items' ;;
      Return ((key, y) :: rest)
  end.

(** The key [k] begins with a dollar sign. *)
Definition index_key (k : string) : bool := PyStr.startswith "$" k.

(** The tree [v] has name keys only: at every level no key is empty and none
    begins with a dollar sign. *)
Fixpoint names_only (v : pyobj) : bool :=
  match v with
  | VDict d =>
      forallb (fun kx : string * pyobj =>
                 let '(k, x) := kx in
                 negb (String.eqb k "") && negb (index_key k) && names_only x) d
  | _ => true
  end.

(** The tree [v] with every empty marker replaced by the value of its enum
    member, at every level. *)
Fixpoint finalized (v : pyobj) : pyobj :=
  match v with
  | VDict d =>
      VDict (map (fun kx : string * pyobj =>
                    let '(k, x) := kx in
                    (k, match x with
                        | VDict _ => finalized x
                        | VEmpty e => EmptyObject_value e
                        | _ => x
                        end)) d)
  | _ => v
  end.

(** A key the scanner can produce: not empty, not beginning with a dollar
    sign. *)
Definition name_key (k : string) : bool :=
  negb (String.eqb k "") && negb (index_key k).

(** The shape of the trees the scanner builds: dictionaries under name keys,
    with booleans, numbers, strings and empty markers as leaves. *)
Fixpoint scanned (v : pyobj) : bool :=
  match v with
  | VDict d =>
      forallb (fun kx : string * pyobj =>
                 let '(k, x) := kx in name_key k && scanned x) d
  | VNone | VList _ => false
  | _ => true
  end.



(** The two errors that [finalize_dict] can raise. *)
Definition list_error (e : exn) : bool :=
  match e with
  | STCParseError (MixedListDictKeys _) _ => true
  | STCParseError (ListGapOrDuplicate _) _ => true
  | _ => false
  end.

(** What holds of the scan state throughout a scan. *)
Definition scan_invariant (st : scan) : Prop :=
  scanned (VDict (parsed st)) = true /\
  forall p, string_key_path st = Some p ->
            Forall (fun k => PyStr.isidentifier k = true) p.

(** What finalization makes of a leaf: an empty marker gives the value of
    its enum member, any other leaf is kept. *)
Definition leaf_value (x : pyobj) : pyobj :=
  match x with
  | VEmpty e => EmptyObject_value e
  | _ => x
  end.

(** A flat document: one scalar assignment per item [(key, token, value)]. *)
Definition flat_lines (items : list (string * string * pyobj)) : list string :=
  map (fun i : string * string * pyobj =>
         let '(k, v, _) := i in assignment [k] v) items.

Definition flat_keys (items : list (string * string * pyobj)) : list string :=
  map (fun i : string * string * pyobj => let '(k, _, _) := i in k) items.

Definition flat_entries (items : list (string * string * pyobj)) : dict :=
  map (fun i : string * string * pyobj => let '(k, _, x) := i in (k, x)) items.

Definition flat_item_ok (i : string * string * pyobj) : Prop :=
  let '(k, v, x) := i in PyStr.isidentifier k = true /\ scalar_token v x.
(* ================================================================= *)
(** ** Sanity checks of the built-ins *)

Example int_samples :
  PyNum.int "1_000" = Some 1000%Z /\ PyNum.int " -007 " = Some (-7)%Z /\
  PyNum.int "1__0" = None /\ PyNum.int "_1" = None /\ PyNum.int "1_" = None /\
  PyNum.int "+_1" = None /\ PyNum.int "" = None /\ PyNum.int "inf" = None /\
  PyNum.int "10.3" = None /\ PyNum.int "$0" = None.
Proof. repeat split; reflexivity. Qed.

Example float_samples :
  PyNum.float "inf" = Some (PyNum.FInf false) /\
  PyNum.float "-Infinity" = Some (PyNum.FInf true) /\
  PyNum.float "nan" = Some (PyNum.FNan false) /\
  PyNum.float "10.3" = Some (PyNum.FDec false 103 (-1)) /\
  PyNum.float "1_0.5" = Some (PyNum.FDec false 105 (-1)) /\
  PyNum.float "1e1_0" = Some (PyNum.FDec false 1 10) /\
  PyNum.float "1.e5" = Some (PyNum.FDec false 1 5) /\
  PyNum.float ".5" = Some (PyNum.FDec false 5 (-1)) /\
  PyNum.float "1E+05" = Some (PyNum.FDec false 1 5) /\
  PyNum.float "1._5" = None /\ PyNum.float "1_e5" = None /\
  PyNum.float "." = None /\ PyNum.float "1e" = None /\ PyNum.float "1e+" = None /\
  PyNum.float ".e5" = None /\ PyNum.float "in_f" = None /\
  PyNum.float "infinit" = None /\ PyNum.float "0x10" = None /\
  PyNum.float "--1" = None /\ PyNum.float "" = None /\ PyNum.float "-" = None.
Proof. repeat split; reflexivity. Qed.

Example str_samples :
  PyStr.split "." "a..b" = ["a"; ""; "b"] /\ PyStr.split "." "" = [""] /\
  PyStr.split1 ":" "a:b:c" = ["a"; "b:c"] /\
  PyStr.strip "  x y  " = "x y" /\ PyStr.rstrip "```  " = "```" /\
  PyStr.lstrip_char "`" "``x`" = "x`" /\ PyStr.drop_last "abc" = "ab" /\
  PyStr.isidentifier "$0" = false /\ PyStr.isidentifier "a_1" = true /\
  PyStr.isidentifier "1a" = false /\ PyStr.isidentifier "" = false.
Proof. repeat split; reflexivity. Qed.

(* ================================================================= *)
(** ** Sanity checks of the decoder *)

Example parse_samples :
  parse_key "a.b_1.c" (Some 1) = Return ["a"; "b_1"; "c"] /\
  parse_key "a..b" (Some 1) =
  Raise (STCParseError (InvalidKeySegment_identifier "a..b") (Some 1)) /\
  parse_value "`true`" None = Return (VBool true, false) /\
  parse_value "[]" None = Return (VEmpty EMPTY_LIST, false) /\
  parse_value "10" None = Return (VInt 10, false) /\
  parse_value "true" (Some 3) =
  Raise (STCParseError (InvalidValueLiteral "true") (Some 3)) /\
  parse_value "````" None = Return (VInt 4, true).
Proof. repeat split; reflexivity. Qed.

Example finalize_samples :
  finalize_dict [("$1", VInt 1); ("$0", VDict [("x", VEmpty EMPTY_LIST)])] "a" =
  Return (VList [VDict [("x", VList EMPTY_LIST_value)]; VInt 1]) /\
  finalize_dict [("$1", VInt 1)] "a" =
  Raise (STCParseError (ListGapOrDuplicate "a") None) /\
  finalize_dict [("$0", VInt 1); ("b", VInt 2)] "a" =
  Raise (STCParseError (MixedListDictKeys "a") None) /\
  finalize_dict [("b", VInt 2); ("$0", VInt 1)] "" =
  Raise (STCParseError (MixedListDictKeys "") None) /\
  finalize_dict [("b", VDict [("$0", VDict [("$1", VInt 1)])])] "" =
  Raise (STCParseError (ListGapOrDuplicate "b.$0") None).
Proof. repeat split; reflexivity. Qed.

Example loads_samples :
  loads_python "{}" = Return (VDict []) /\
  loads_python (document ["a.b: 1"; ""; "a.c.d: 10.3"; "a.c.e: `true`"; "z: []"; "y: {}"]) =
  Return (VDict [("a", VDict [("b", VInt 1);
                              ("c", VDict [("d", VFloat (PyNum.FDec false 103 (-1)));
                                           ("e", VBool true)])]);
                 ("z", VList EMPTY_LIST_value); ("y", VDict EMPTY_DICT_value)]) /\
  loads_python (document ["meta.note: ```"; "hello"; "```"]) =
  Return (VDict [("meta", VDict [("note", VStr "hello")])]) /\
  loads_python "a" = Raise (STCParseError (MissingColon "a") (Some 1)) /\
  loads_python (document ["a: ````"; "x"; "```"]) =
  Raise (STCParseError UnterminatedStringBlock (Some 3)) /\
  loads_python (document ["a.a: 1"; "a.a: 2"]) =
  Raise (STCParseError (DuplicateLeafAssignment "a.a" (VInt 1) (VInt 2)) None).
Proof. repeat split; reflexivity. Qed.

(* ================================================================= *)
(** ** Lemmas on strings *)

Section StringFacts.

Import PyStr.

Lemma append_nil_r (s : string) : s ++ "" = s.
Proof. induction s as [|c s IH]; simpl; [reflexivity | now rewrite IH]. Qed.

Lemma append_assoc (a b c : string) : (a ++ b) ++ c = a ++ b ++ c.
Proof. induction a as [|x a IH]; simpl; [reflexivity | now rewrite IH]. Qed.

Lemma length_append (a b : string) :
  String.length (a ++ b) = (String.length a + String.length b)%nat.
Proof. induction a as [|x a IH]; simpl; [reflexivity | now rewrite IH]. Qed.

Lemma all_chars_impl (p q : ascii -> bool) (s : string) :
  (forall c, p c = true -> q c = true) ->
  all_chars p s = true -> all_chars q s = true.
Proof.
  intros Hpq. induction s as [|c s IH]; simpl; [reflexivity|].
  rewrite andb_true_iff. intros [Hc Hs]. now rewrite (Hpq c Hc), IH.
Qed.

Lemma all_chars_append (p : ascii -> bool) (a b : string) :
  all_chars p (a ++ b) = all_chars p a && all_chars p b.
Proof.
  induction a as [|c a IH]; simpl; [reflexivity|].
  now rewrite IH, andb_assoc.
Qed.

(** *** Occurrence of a character *)

Lemma lacks_cons (c x : ascii) (s : string) :
  lacks c (String x s) <-> x <> c /\ lacks c s.
Proof.
  unfold lacks, contains. simpl.
  destruct (Ascii.eqb_spec x c) as [->|Hne].
  - split; [discriminate | intros [H _]; now contradiction H].
  - destruct (partition c s) as [[a b]|]; split; try discriminate; auto.
    + intros [_ H]. exact H.
Qed.

Lemma lacks_nil (c : ascii) : lacks c "".
Proof. reflexivity. Qed.

Lemma lacks_append (c : ascii) (a b : string) :
  lacks c (a ++ b) <-> lacks c a /\ lacks c b.
Proof.
  induction a as [|x a IH]; simpl.
  - split; [intros H; split; [apply lacks_nil | exact H] | intros [_ H]; exact H].
  - rewrite !lacks_cons, IH. tauto.
Qed.

Lemma lacks_all_chars (c : ascii) (p : ascii -> bool) (s : string) :
  p c = false -> all_chars p s = true -> lacks c s.
Proof.
  intros Hc. induction s as [|x s IH]; simpl; [intros _; apply lacks_nil|].
  rewrite andb_true_iff. intros [Hx Hs]. apply lacks_cons. split; [|auto].
  intros ->. congruence.
Qed.

Lemma lacks_repeat_char (c x : ascii) (n : nat) :
  x <> c -> lacks c (repeat_char x n).
Proof.
  intros Hne. induction n as [|n IH]; simpl; [apply lacks_nil|].
  apply lacks_cons. auto.
Qed.

(** *** [partition] and [split] *)

Lemma partition_first (c : ascii) (a b : string) :
  lacks c a -> partition c (a ++ String c b) = Some (a, b).
Proof.
  induction a as [|x a IH]; simpl; intros H.
  - now rewrite Ascii.eqb_refl.
  - apply lacks_cons in H. destruct H as [Hne H].
    apply Ascii.eqb_neq in Hne. rewrite Hne, (IH H). reflexivity.
Qed.

Lemma contains_first (c : ascii) (a b : string) :
  contains c (a ++ String c b) = true.
Proof.
  unfold contains. induction a as [|x a IH]; simpl.
  - now rewrite Ascii.eqb_refl.
  - destruct (Ascii.eqb x c); [reflexivity|].
    destruct (partition c (a ++ String c b)) as [[u v]|]; [reflexivity | discriminate].
Qed.

Lemma split_nonempty (c : ascii) (s : string) :
  exists h t, split c s = h :: t.
Proof.
  induction s as [|x s [h [t IH]]]; simpl.
  - now exists "", [].
  - destruct (Ascii.eqb x c); [now eexists _, _|].
    rewrite IH. now eexists _, _.
Qed.

Lemma split_lacks (c : ascii) (s : string) : lacks c s -> split c s = [s].
Proof.
  induction s as [|x s IH]; simpl; intros H; [reflexivity|].
  apply lacks_cons in H. destruct H as [Hne H].
  apply Ascii.eqb_neq in Hne. now rewrite Hne, (IH H).
Qed.

Lemma split_append_sep (c : ascii) (a b : string) :
  split c (a ++ String c b) = (split c a ++ split c b)%list.
Proof.
  induction a as [|x a IH]; simpl.
  - now rewrite Ascii.eqb_refl.
  - destruct (Ascii.eqb x c); [now rewrite IH|].
    rewrite IH. destruct (split_nonempty c a) as [h [t ->]]. reflexivity.
Qed.

Lemma split_line_rest (c : ascii) (a b : string) :
  lacks c a -> split c (a ++ String c b) = a :: split c b.
Proof. intros H. now rewrite split_append_sep, (split_lacks _ _ H). Qed.

Lemma unlines_split (s : string) : unlines (split newline s) = s ++ nl.
Proof.
  induction s as [|x s IH]; simpl; [reflexivity|].
  destruct (Ascii.eqb_spec x newline) as [->|Hne]; simpl.
  - now rewrite IH.
  - destruct (split_nonempty newline s) as [h [t E]].
    rewrite E in *. simpl in *. now rewrite IH.
Qed.

(** *** Stripping *)

Lemma lstrip_by_keep (p : ascii -> bool) (c : ascii) (s : string) :
  p c = false -> lstrip_by p (String c s) = String c s.
Proof. intros H. simpl. now rewrite H. Qed.

Lemma rstrip_by_cons (p : ascii -> bool) (c : ascii) (s : string) :
  p c = false -> rstrip_by p (String c s) = String c (rstrip_by p s).
Proof. intros H. simpl. rewrite H. now destruct (rstrip_by p s). Qed.

Lemma rstrip_by_none (p : ascii -> bool) (s : string) :
  all_chars (fun c => negb (p c)) s = true -> rstrip_by p s = s.
Proof.
  induction s as [|c s IH]; [reflexivity|].
  cbn [all_chars]. rewrite andb_true_iff, negb_true_iff. intros [Hc Hs].
  now rewrite (rstrip_by_cons _ _ _ Hc), (IH Hs).
Qed.

Lemma strip_keep (s : string) :
  all_chars (fun c => negb (isspace c)) s = true -> strip s = s.
Proof.
  intros H. unfold strip, rstrip, lstrip.
  assert (E : lstrip_by isspace s = s).
  { destruct s as [|c s]; [reflexivity|]. simpl in H.
    apply andb_true_iff in H. destruct H as [Hc _].
    apply negb_true_iff in Hc. now apply lstrip_by_keep. }
  rewrite E. now apply rstrip_by_none.
Qed.

Lemma drop_last_snoc (s : string) (c : ascii) : drop_last (s ++ String c "") = s.
Proof.
  induction s as [|x s IH]; [reflexivity|].
  simpl. rewrite IH. destruct s; reflexivity.
Qed.

(** *** Runs of backticks *)

Lemma length_backticks (n : nat) : String.length (backticks n) = n.
Proof.
  unfold backticks. induction n as [|n IH]; simpl; [reflexivity | now rewrite IH].
Qed.

Lemma all_chars_backticks (p : ascii -> bool) (n : nat) :
  p backtick = true -> all_chars p (backticks n) = true.
Proof.
  intros H. unfold backticks.
  induction n as [|n IH]; simpl; [reflexivity | now rewrite H, IH].
Qed.

Lemma rstrip_backticks (n : nat) : rstrip (backticks n) = backticks n.
Proof. apply rstrip_by_none, all_chars_backticks. reflexivity. Qed.

Lemma lstrip_char_backticks (n : nat) (rest : string) :
  startswith "`" rest = false ->
  lstrip_char backtick (backticks n ++ rest) = rest.
Proof.
  intros H. unfold lstrip_char, backticks.
  induction n as [|n IH]; cbn [repeat_char append lstrip_by].
  - destruct rest as [|c r]; [reflexivity|].
    cbn [lstrip_by]. destruct (Ascii.eqb_spec backtick c) as [<-|Hne]; [|reflexivity].
    unfold startswith in H. simpl in H. destruct r; discriminate.
  - now rewrite Ascii.eqb_refl.
Qed.

End StringFacts.

(* ================================================================= *)
(** ** Lemmas on [int] and [float] *)

Section NumberFacts.

Import PyStr PyNum.

Lemma num_strip_starts (c : ascii) (s : string) :
  is_num_space c = false ->
  num_strip (String c s) = String c (rstrip_by is_num_space s).
Proof.
  intros H. unfold num_strip.
  now rewrite (lstrip_by_keep _ _ _ H), (rstrip_by_cons _ _ _ H).
Qed.

(** A token that begins with a backtick is not an integer literal. *)
Lemma int_backtick (s : string) : PyNum.int (String backtick s) = None.
Proof.
  unfold PyNum.int. rewrite num_strip_starts by reflexivity. reflexivity.
Qed.

(** A token that begins with a backtick is not a float literal. *)
Lemma float_backtick (s : string) : PyNum.float (String backtick s) = None.
Proof.
  unfold PyNum.float. rewrite num_strip_starts by reflexivity.
  cbn [drop_underscores]. change (Ascii.eqb backtick "_") with false.
  change (Ascii.eqb zero "_") with false. cbn [andb].
  destruct (drop_underscores backtick (rstrip_by is_num_space s)) as [t|];
    reflexivity.
Qed.

End NumberFacts.

(* ================================================================= *)
(** ** Lemmas on [parse_value] *)

Section ParseValueFacts.

Import PyStr.

Lemma startswith_cons (c : ascii) (p s : string) :
  startswith (String c p) s = true <->
  exists s', s = String c s' /\ startswith p s' = true.
Proof.
  unfold startswith. destruct s as [|x s]; simpl.
  - split; [discriminate | intros [s' [E _]]; discriminate].
  - destruct (ascii_dec c x) as [<-|Hne].
    + split; [intros H; now exists s | intros [s' [E H]]; now injection E as <-].
    + split; [discriminate | intros [s' [E _]]; injection E as E _; congruence].
Qed.

Lemma startswith_nil (s : string) : startswith "" s = true.
Proof. now destruct s. Qed.

(** A token that opens with a backtick, but not with three, and is not a
    boolean literal, is refused on the spot. *)
Lemma parse_value_backtick_refused (v : string) (ln : option nat) :
  startswith "`" v = true -> startswith "```" v = false ->
  v <> "`true`" -> v <> "`false`" ->
  parse_value v ln = Raise (STCParseError (InvalidValueLiteral v) ln).
Proof.
  intros H1 H3 Ht Hf.
  apply startswith_cons in H1. destruct H1 as [s [-> _]].
  unfold parse_value.
  apply String.eqb_neq in Ht, Hf. rewrite Ht, Hf.
  change (String.eqb (String "`" s) "[]") with false.
  change (String.eqb (String "`" s) "{}") with false. cbn iota.
  change (String "`" s) with (String backtick s).
  rewrite int_backtick, float_backtick.
  change (String backtick s) with (String "`" s).
  now rewrite H3.
Qed.

(** A token that opens with [n >= 3] backticks starts a string block whose
    fence has [n] backticks, whatever follows the run. *)
Lemma parse_value_fence (n : nat) (rest : string) (ln : option nat) :
  3 <= n -> startswith "`" rest = false ->
  parse_value (backticks n ++ rest) ln = Return (VInt (Z.of_nat n), true).
Proof.
  intros Hn Hrest.
  assert (Hlen : (Z.of_nat (String.length (backticks n ++ rest))
                  - Z.of_nat (String.length (lstrip_char backtick (backticks n ++ rest))))%Z
                 = Z.of_nat n).
  { rewrite (lstrip_char_backticks n rest Hrest), length_append, length_backticks. lia. }
  unfold parse_value. rewrite Hlen. clear Hlen.
  destruct n as [|[|[|m]]]; try lia.
  change (backticks (S (S (S m))) ++ rest) with
    (String backtick (String backtick (String backtick (backticks m ++ rest)))).
  rewrite int_backtick, float_backtick.
  destruct (backticks m ++ rest); reflexivity.
Qed.

End ParseValueFacts.

(* ================================================================= *)
(** ** Lemmas on the line scanner *)

Section ScanFacts.

Import PyStr.

(** A character that is not white space and is absent from the stripped text
    is absent from the text. *)
Lemma lacks_lstrip (c : ascii) (s : string) :
  isspace c = false -> lacks c (lstrip s) -> lacks c s.
Proof.
  intros Hc. unfold lstrip. induction s as [|x s IH]; [auto|].
  cbn [lstrip_by]. destruct (isspace x) eqn:Hx; [|auto].
  intros H. apply lacks_cons. split; [intros ->; congruence | auto].
Qed.

Lemma lacks_rstrip (c : ascii) (s : string) :
  isspace c = false -> lacks c (rstrip s) -> lacks c s.
Proof.
  intros Hc. unfold rstrip. induction s as [|x s IH]; [auto|].
  cbn [rstrip_by]. destruct (rstrip_by isspace s) as [|y r] eqn:E.
  - intros H. apply lacks_cons. split; [|apply IH, lacks_nil].
    destruct (isspace x) eqn:Hx; [intros ->; congruence|].
    apply lacks_cons in H. tauto.
  - intros H. apply lacks_cons in H. destruct H as [Hx H].
    apply lacks_cons. auto.
Qed.

Lemma lacks_strip (c : ascii) (s : string) :
  isspace c = false -> lacks c (strip s) -> lacks c s.
Proof.
  intros Hc H. apply lacks_lstrip; [exact Hc|].
  apply lacks_rstrip; [exact Hc | exact H].
Qed.

Lemma strip_with_colon (s : string) :
  contains ":" s = true -> strip s <> "" /\ strip s <> "{}".
Proof.
  intros H. split; intros E;
    assert (L : lacks ":" (strip s)) by (rewrite E; reflexivity);
    apply lacks_strip in L; try reflexivity;
    unfold lacks in L; congruence.
Qed.

Lemma rstrip_backticks_append (n : nat) (s : string) :
  rstrip (backticks n ++ s) = backticks n ++ rstrip s.
Proof.
  unfold rstrip, backticks. induction n as [|n IH]; cbn [repeat_char append].
  - reflexivity.
  - rewrite rstrip_by_cons by reflexivity. now rewrite IH.
Qed.

Lemma startswith_rstrip (p : ascii) (s : string) :
  startswith (String p "") s = false -> startswith (String p "") (rstrip s) = false.
Proof.
  unfold startswith, rstrip. destruct s as [|c s]; [auto|].
  cbn [rstrip_by prefix]. intros H.
  destruct (rstrip_by isspace s); [destruct (isspace c)|]; cbn [prefix];
    try reflexivity; destruct (ascii_dec p c); try reflexivity;
    destruct s; discriminate.
Qed.

(** *** Sequencing *)

Lemma loads_loop_app (n : nat) (l1 l2 : list string) (st : scan) :
  loads_loop n (l1 ++ l2) st =
  (st' <- loads_loop n l1 st ;; loads_loop (n + length l1) l2 st').
Proof.
  revert n st. induction l1 as [|l l1 IH]; intros n st; cbn [loads_loop app length].
  - cbn [bind]. now rewrite Nat.add_0_r.
  - destruct (loads_line n l st) as [st'|e]; cbn [bind]; [|reflexivity].
    rewrite IH. now rewrite Nat.add_succ_r.
Qed.

(** *** Normal mode *)

Lemma loads_line_assign (n : nat) (k v : string) (st : scan) :
  in_a_string st = false -> lacks ":" k ->
  loads_line n (k ++ String ":" v) st = assign n k v st.
Proof.
  intros Hst Hk. unfold loads_line. rewrite Hst. cbn [negb].
  destruct (strip_with_colon (k ++ String ":" v) (contains_first _ _ _)) as [Hne _].
  apply String.eqb_neq in Hne. rewrite Hne.
  rewrite contains_first. cbn [negb].
  unfold split1. now rewrite (partition_first _ _ _ Hk).
Qed.

(** An opening fence of [f >= 3] backticks, with anything after it that does
    not begin with a backtick, enters the block for the parsed key. *)
Lemma assign_fence (n f : nat) (k pad extra : string) (path : list string) (st : scan) :
  3 <= f ->
  parse_key (strip k) (Some (n + 1)) = Return path ->
  all_chars isspace pad = true ->
  startswith "`" extra = false ->
  assign n k (pad ++ backticks f ++ extra) st = Return (in_block f "" path (parsed st)).
Proof.
  intros Hf Hk Hpad Hextra. unfold assign. rewrite Hk. cbn [bind].
  assert (E : strip (pad ++ backticks f ++ extra) = backticks f ++ rstrip extra).
  { unfold strip. 
    assert (L : lstrip (pad ++ backticks f ++ extra) = backticks f ++ extra).
    { unfold lstrip. clear Hk. induction pad as [|c pad IH]; cbn [append].
      - destruct f as [|f]; [lia|]. reflexivity.
      - cbn [all_chars] in Hpad. apply andb_true_iff in Hpad.
        destruct Hpad as [Hc Hpad]. cbn [lstrip_by]. rewrite Hc. auto. }
    rewrite L. apply rstrip_backticks_append. }
  rewrite E.
  rewrite (parse_value_fence f (rstrip extra) _ Hf (startswith_rstrip _ _ Hextra)).
  reflexivity.
Qed.

(** *** String mode *)

Lemma loads_line_content (f n : nat) (line acc : string) (path : list string)
    (parsed : dict) :
  rstrip line <> backticks f ->
  loads_line n line (in_block f acc path parsed) =
  Return (in_block f (acc ++ line ++ nl) path parsed).
Proof.
  intros H. unfold loads_line, in_block. cbn [in_a_string negb bt_count fence_of bind].
  rewrite Nat2Z.id. apply String.eqb_neq in H. now rewrite H.
Qed.

Lemma loads_loop_content (f : nat) (ls : list string) :
  forall (n : nat) (acc : string) (path : list string) (parsed : dict),
  (forall l, In l ls -> rstrip l <> backticks f) ->
  loads_loop n ls (in_block f acc path parsed) =
  Return (in_block f (acc ++ unlines ls) path parsed).
Proof.
  induction ls as [|l ls IH]; intros n acc path parsed H; cbn [loads_loop unlines].
  - now rewrite append_nil_r.
  - rewrite loads_line_content by (apply H; now left). cbn [bind].
    rewrite IH by (intros l' Hl'; apply H; now right).
    now rewrite !append_assoc.
Qed.

Lemma loads_line_close (f n : nat) (acc : string) (path : list string)
    (parsed : dict) :
  acc <> "" ->
  loads_line n (backticks f) (in_block f acc path parsed) =
  (parsed' <- fill_in_value path (VStr (drop_last acc)) parsed ;;
   Return (between parsed')).
Proof.
  intros H. unfold loads_line, in_block.
  cbn [in_a_string negb bt_count fence_of bind string_value string_key_path].
  rewrite Nat2Z.id, rstrip_backticks, String.eqb_refl.
  destruct acc as [|c acc]; [contradiction|]. reflexivity.
Qed.

Lemma loads_line_close_empty (f n : nat) (path : list string) (parsed : dict) :
  loads_line n (backticks f) (in_block f "" path parsed) =
  Raise (STCParseError MalformedEmptyStringBlock (Some (n + 1))).
Proof.
  unfold loads_line, in_block.
  cbn [in_a_string negb bt_count fence_of bind string_value string_key_path].
  now rewrite Nat2Z.id, rstrip_backticks, String.eqb_refl.
Qed.

End ScanFacts.

(* ================================================================= *)
(** ** String blocks *)

Section StringBlocks.

Import PyStr.

Lemma fenced_lines (f : nat) (C : string) :
  split newline (fenced f C) =
  ("a: " ++ backticks f) :: (content_lines C ++ [backticks f])%list.
Proof.
  assert (E : fenced f C =
              ("a: " ++ backticks f) ++ String newline (C ++ String newline (backticks f))).
  { unfold fenced, nl. now rewrite !append_assoc. }
  rewrite E, split_line_rest, split_append_sep.
  - rewrite (split_lacks newline (backticks f)); [reflexivity|].
    apply lacks_repeat_char. discriminate.
  - apply lacks_append. split; [reflexivity|].
    apply lacks_repeat_char. discriminate.
Qed.

Lemma fenced_has_colon (f : nat) (C : string) : contains ":" (fenced f C) = true.
Proof. apply (contains_first ":" "a"). Qed.

(** Decoding a fenced block gives back its content when no content line,
    right-trimmed, is the closing fence. *)
Lemma string_block_roundtrip_exact (C : string) (f : nat) :
  3 <= f ->
  (forall l, In l (content_lines C) -> rstrip l <> backticks f) ->
  loads_python (fenced f C) = Return (VDict [("a", VStr C)]).
Proof.
  intros Hf Hlines. unfold loads_python.
  destruct (strip_with_colon _ (fenced_has_colon f C)) as [_ Hne].
  apply String.eqb_neq in Hne. rewrite Hne. clear Hne.
  rewrite fenced_lines. cbn [loads_loop].
  change ("a: " ++ backticks f) with ("a" ++ String ":" (" " ++ backticks f)).
  rewrite loads_line_assign by reflexivity.
  replace (" " ++ backticks f) with (" " ++ backticks f ++ "")
    by now rewrite append_nil_r.
  rewrite (assign_fence 0 f "a" " " "" ["a"]) by (reflexivity || assumption).
  cbn [bind]. rewrite loads_loop_app.
  rewrite (loads_loop_content f _ _ _ _ _ Hlines). cbn [bind append].
  unfold content_lines. rewrite unlines_split. cbn [loads_loop].
  rewrite loads_line_close by (destruct C; discriminate).
  unfold nl. rewrite drop_last_snoc. reflexivity.
Qed.

End StringBlocks.

(* ================================================================= *)
(** ** Lemmas on dictionaries and on [fill_in_value] *)

Section TreeFacts.

Lemma dict_get_set_same (k : string) (v : pyobj) (d : dict) :
  dict_get k (dict_set k v d) = Some v.
Proof.
  induction d as [|[k' v'] d IH]; cbn [dict_set dict_get].
  - now rewrite String.eqb_refl.
  - destruct (String.eqb k k') eqn:E; cbn [dict_get]; rewrite E; auto.
Qed.

Lemma dict_get_set_other (k k' : string) (v : pyobj) (d : dict) :
  k <> k' -> dict_get k (dict_set k' v d) = dict_get k d.
Proof.
  intros Hne. apply String.eqb_neq in Hne.
  induction d as [|[k0 v0] d IH]; cbn [dict_set dict_get].
  - now rewrite Hne.
  - destruct (String.eqb k' k0) eqn:E; cbn [dict_get].
    + apply String.eqb_eq in E. subst k0. now rewrite Hne.
    + now rewrite IH.
Qed.

Lemma dict_get_set_fresh (k k' : string) (v x : pyobj) (d : dict) :
  dict_get k' d = None -> dict_get k d = Some x ->
  dict_get k (dict_set k' v d) = Some x.
Proof.
  intros Hnone Hsome. rewrite dict_get_set_other; [exact Hsome|].
  intros ->. congruence.
Qed.

Lemma removelast_cons2 (A : Type) (a b : A) (l : list A) :
  removelast (a :: b :: l) = a :: removelast (b :: l).
Proof. reflexivity. Qed.

Lemma removelast_cons_app (A : Type) (a : A) (l q : list A) :
  q <> [] -> removelast (a :: l ++ q) = a :: removelast (l ++ q).
Proof. intros Hq. destruct l; destruct q; try contradiction; reflexivity. Qed.

Lemma firstn_length_app (A : Type) (l r : list A) : firstn (length l) (l ++ r) = l.
Proof. induction l as [|a l IH]; cbn; [now destruct r | now rewrite IH]. Qed.

(** Extending a path that already holds a leaf is refused, with the leaf's
    path in the message. *)
Lemma fill_in_from_leaf (v x : pyobj) (q : list string) :
  q <> [] ->
  forall (p pre : list string) (piece : option string) (current : dict),
  p <> [] ->
  lookup p (VDict current) = Some x -> is_dict x = false ->
  fill_in_from (pre ++ p ++ q) v (length pre) (removelast (p ++ q)) piece current =
  Raise (STCParseError (ConflictingContainerAndLeaf (PyStr.join "." (pre ++ p))) None).
Proof.
  intros Hq. induction p as [|a p IH]; intros pre piece current Hp Hl Hx;
    [contradiction|].
  cbn [lookup] in Hl. destruct (dict_get a current) as [y|] eqn:Ha; [|discriminate].
  cbn [app]. rewrite removelast_cons_app by exact Hq. cbn [fill_in_from]. rewrite Ha.
  destruct p as [|b p].
  - cbn [lookup] in Hl. injection Hl as ->.
    replace (S (length pre)) with (length (pre ++ [a])) by (rewrite length_app; cbn; lia).
    replace (pre ++ a :: [] ++ q)%list with ((pre ++ [a]) ++ q)%list
      by now rewrite <- app_assoc.
    rewrite firstn_length_app. destruct x; try reflexivity. discriminate.
  - destruct y as [| | | | | | |child];
      try (cbn [lookup] in Hl; discriminate).
    specialize (IH (pre ++ [a])%list (Some a) child).
    rewrite length_app in IH. cbn [length] in IH.
    rewrite Nat.add_1_r in IH. rewrite <- !app_assoc in IH. cbn [app] in IH.
    cbn [app]. rewrite IH; [reflexivity | discriminate | exact Hl | exact Hx].
Qed.

(** Assigning a path that already holds a dictionary is refused. *)
Lemma fill_in_from_container (v : pyobj) :
  forall (p pre : list string) (piece : option string) (current : dict),
  p <> [] ->
  container_at p current ->
  fill_in_from (pre ++ p) v (length pre) (removelast p) piece current =
  Raise (STCParseError (ConflictingContainerAndLeaf_direct (PyStr.join "." (pre ++ p))) None).
Proof.
  induction p as [|a p IH]; intros pre piece current Hp [d Hl]; [contradiction|].
  cbn [lookup] in Hl. destruct (dict_get a current) as [y|] eqn:Ha; [|discriminate].
  destruct p as [|b p].
  - cbn [lookup] in Hl. injection Hl as ->.
    cbn [removelast fill_in_from]. rewrite rev_app_distr. cbn [rev app].
    now rewrite Ha.
  - rewrite removelast_cons2. cbn [fill_in_from]. rewrite Ha.
    destruct y as [| | | | | | |child];
      try (cbn [lookup] in Hl; discriminate).
    specialize (IH (pre ++ [a])%list (Some a) child).
    rewrite length_app in IH. cbn [length] in IH.
    rewrite Nat.add_1_r in IH. rewrite <- !app_assoc in IH. cbn [app] in IH.
    rewrite IH; [reflexivity | discriminate | now exists d].
Qed.

Lemma fill_in_value_leaf (p q : list string) (v x : pyobj) (parsed : dict) :
  p <> [] -> q <> [] -> leaf_at p x parsed ->
  fill_in_value (p ++ q) v parsed =
  Raise (STCParseError (ConflictingContainerAndLeaf (key_text p)) None).
Proof.
  intros Hp Hq [Hl Hx]. unfold fill_in_value.
  exact (fill_in_from_leaf v x q Hq p [] None parsed Hp Hl Hx).
Qed.

Lemma fill_in_value_container (p : list string) (v : pyobj) (parsed : dict) :
  p <> [] -> container_at p parsed ->
  fill_in_value p v parsed =
  Raise (STCParseError (ConflictingContainerAndLeaf_direct (key_text p)) None).
Proof.
  intros Hp Hc. unfold fill_in_value.
  exact (fill_in_from_container v p [] None parsed Hp Hc).
Qed.

Lemma persists_refl (x : pyobj) : persists x x.
Proof. unfold persists. destruct (is_dict x); reflexivity. Qed.

Lemma persists_trans (x y z : pyobj) : persists x y -> persists y z -> persists x z.
Proof.
  unfold persists. destruct (is_dict x) eqn:Hx.
  - intros Hy. now rewrite Hy.
  - intros ->. now rewrite Hx.
Qed.

(** A successful assignment keeps every leaf and every dictionary that was
    there before. *)
Lemma fill_in_from_keeps (full : list string) (v : pyobj) :
  forall (rest : list string) (i : nat) (piece : option string)
         (current current' : dict),
  fill_in_from full v i rest piece current = Return current' ->
  forall (P : list string) (x : pyobj),
  lookup P (VDict current) = Some x ->
  exists x', lookup P (VDict current') = Some x' /\ persists x x'.
Proof.
  induction rest as [|a rest IH]; intros i piece current current' H P x Hl.
  - cbn [fill_in_from] in H. destruct (rev full) as [|last_piece l]; [discriminate|].
    destruct (dict_get last_piece current) as [y|] eqn:E.
    + destruct y; try discriminate;
        destruct piece as [p|]; try discriminate;
        destruct (dict_get p current); discriminate.
    + injection H as <-. destruct P as [|k r].
      * cbn [lookup] in Hl. injection Hl as <-. eexists. split; reflexivity.
      * cbn [lookup] in *. destruct (dict_get k current) as [y|] eqn:Ek; [|discriminate].
        rewrite (dict_get_set_fresh _ _ _ _ _ E Ek).
        exists x. split; [exact Hl | apply persists_refl].
  - cbn [fill_in_from] in H. destruct (dict_get a current) as [y|] eqn:E.
    + destruct y as [| | | | | | |child]; try discriminate.
      destruct (fill_in_from full v (S i) rest (Some a) child) as [sub|e] eqn:F;
        cbn [bind] in H; [|discriminate].
      injection H as <-. destruct P as [|k r].
      * cbn [lookup] in Hl. injection Hl as <-. eexists. split; reflexivity.
      * cbn [lookup] in *. destruct (String.eqb_spec k a) as [->|Hne].
        -- rewrite E in Hl. rewrite dict_get_set_same. exact (IH _ _ _ _ F r x Hl).
        -- rewrite dict_get_set_other by exact Hne.
           destruct (dict_get k current) as [y|]; [|discriminate].
           exists x. split; [exact Hl | apply persists_refl].
    + destruct (fill_in_from full v (S i) rest (Some a) []) as [sub|e] eqn:F;
        cbn [bind] in H; [|discriminate].
      injection H as <-. destruct P as [|k r].
      * cbn [lookup] in Hl. injection Hl as <-. eexists. split; reflexivity.
      * cbn [lookup] in *. destruct (dict_get k current) as [y|] eqn:Ek; [|discriminate].
        rewrite (dict_get_set_fresh _ _ _ _ _ E Ek).
        exists x. split; [exact Hl | apply persists_refl].
Qed.

(** A successful assignment puts the value at its path. *)
Lemma fill_in_from_sets (v : pyobj) :
  forall (p pre : list string) (piece : option string) (current current' : dict),
  p <> [] ->
  fill_in_from (pre ++ p) v (length pre) (removelast p) piece current = Return current' ->
  lookup p (VDict current') = Some v.
Proof.
  induction p as [|a p IH]; intros pre piece current current' Hp H; [contradiction|].
  destruct p as [|b p].
  - cbn [removelast fill_in_from] in H. rewrite rev_app_distr in H. cbn [rev app] in H.
    destruct (dict_get a current) as [y|] eqn:E.
    + destruct y; try discriminate;
        destruct piece as [p|]; try discriminate;
        destruct (dict_get p current); discriminate.
    + injection H as <-. cbn [lookup]. now rewrite dict_get_set_same.
  - rewrite removelast_cons2 in H. cbn [fill_in_from] in H.
    specialize (IH (pre ++ [a])%list (Some a)).
    rewrite length_app in IH. cbn [length] in IH.
    rewrite Nat.add_1_r in IH. rewrite <- !app_assoc in IH. cbn [app] in IH.
    destruct (dict_get a current) as [y|] eqn:E.
    + destruct y as [| | | | | | |child]; try discriminate.
      destruct (fill_in_from (pre ++ a :: b :: p) v (S (length pre))
                  (removelast (b :: p)) (Some a) child) as [sub|e] eqn:F;
        cbn [bind] in H; [|discriminate].
      injection H as <-. cbn [lookup]. rewrite dict_get_set_same.
      apply (IH child sub); [discriminate | exact F].
    + destruct (fill_in_from (pre ++ a :: b :: p) v (S (length pre))
                  (removelast (b :: p)) (Some a) []) as [sub|e] eqn:F;
        cbn [bind] in H; [|discriminate].
      injection H as <-. cbn [lookup]. rewrite dict_get_set_same.
      apply (IH [] sub); [discriminate | exact F].
Qed.

Lemma fill_in_value_keeps (path : list string) (v : pyobj) (parsed parsed' : dict) :
  fill_in_value path v parsed = Return parsed' ->
  forall (P : list string) (x : pyobj),
  lookup P (VDict parsed) = Some x ->
  exists x', lookup P (VDict parsed') = Some x' /\ persists x x'.
Proof. unfold fill_in_value. apply fill_in_from_keeps. Qed.

Lemma fill_in_value_sets (path : list string) (v : pyobj) (parsed parsed' : dict) :
  path <> [] ->
  fill_in_value path v parsed = Return parsed' ->
  lookup path (VDict parsed') = Some v.
Proof.
  unfold fill_in_value. intros Hp H.
  exact (fill_in_from_sets v path [] None parsed parsed' Hp H).
Qed.

Lemma lookup_app (p q : list string) :
  forall (y v : pyobj),
  lookup (p ++ q) y = Some v ->
  exists z, lookup p y = Some z /\ lookup q z = Some v.
Proof.
  induction p as [|a p IH]; intros y v H; cbn [app lookup] in *.
  - now exists y.
  - destruct y as [| | | | | | |d]; try discriminate.
    destruct (dict_get a d) as [x|]; [|discriminate]. now apply IH.
Qed.

Lemma lookup_container (p q : list string) (v : pyobj) (parsed : dict) :
  q <> [] -> lookup (p ++ q) (VDict parsed) = Some v -> container_at p parsed.
Proof.
  intros Hq H. apply lookup_app in H. destruct H as [z [Hp Hz]].
  destruct q as [|b q]; [contradiction|]. cbn [lookup] in Hz.
  destruct z as [| | | | | | |d]; try discriminate. now exists d.
Qed.

End TreeFacts.

(* ================================================================= *)
(** ** Lemmas on [parse_key] *)

Section KeyFacts.

Import PyStr.

Lemma xid_first_continue (c : ascii) :
  (is_xid_start c || (ord c =? 95)%N) = true -> is_xid_continue c = true.
Proof.
  unfold is_xid_continue. intros H. apply orb_true_iff in H.
  destruct H as [-> | ->]; [reflexivity|]. now rewrite !orb_true_r.
Qed.

Lemma identifier_chars (s : string) :
  isidentifier s = true -> all_chars is_xid_continue s = true.
Proof.
  destruct s as [|c s]; [discriminate|]. cbn [isidentifier all_chars].
  rewrite !andb_true_iff. intros [Hc Hs]. split; [now apply xid_first_continue | exact Hs].
Qed.

(** An identifier is not empty and does not begin with a dollar sign. *)
Lemma identifier_first (s : string) :
  isidentifier s = true ->
  exists c s', s = String c s' /\ Ascii.eqb c "$" = false.
Proof.
  destruct s as [|c s]; [discriminate|]. cbn [isidentifier].
  rewrite andb_true_iff. intros [Hc _]. exists c, s. split; [reflexivity|].
  destruct (Ascii.eqb_spec c "$") as [->|]; [discriminate | reflexivity].
Qed.

Lemma key_char_not_space (c : ascii) : key_char c = true -> negb (isspace c) = true.
Proof.
  destruct c as [[] [] [] [] [] [] [] []]; vm_compute; intros H;
    first [reflexivity | discriminate H].
Qed.

Lemma key_text_chars (p : list string) :
  Forall (fun piece => isidentifier piece = true) p ->
  all_chars key_char (key_text p) = true.
Proof.
  unfold key_text. induction 1 as [|x p Hx Hp IH]; [reflexivity|].
  assert (Hxc : all_chars key_char x = true).
  { apply (all_chars_impl is_xid_continue); [|now apply identifier_chars].
    intros c Hc. unfold key_char. now rewrite Hc. }
  destruct p as [|y p]; [exact Hxc|].
  change (join "." (x :: y :: p)) with (x ++ String "." (join "." (y :: p))).
  rewrite all_chars_append, Hxc. cbn [all_chars andb]. exact IH.
Qed.

Lemma identifier_lacks_dot (s : string) : isidentifier s = true -> lacks "." s.
Proof.
  intros H. apply (lacks_all_chars "." is_xid_continue); [reflexivity|].
  now apply identifier_chars.
Qed.

Lemma split_key_text (p : list string) :
  identifier_path p -> split "." (key_text p) = p.
Proof.
  intros [Hne H]. unfold key_text. induction H as [|x p Hx Hp IH]; [contradiction|].
  destruct p as [|y p].
  - cbn [join]. apply split_lacks. now apply identifier_lacks_dot.
  - change (join "." (x :: y :: p)) with (x ++ String "." (join "." (y :: p))).
    rewrite split_line_rest by now apply identifier_lacks_dot.
    rewrite IH; [reflexivity | discriminate].
Qed.

Lemma parse_key_loop_identifiers (key : string) (ln : option nat) (p : list string) :
  Forall (fun piece => isidentifier piece = true) p ->
  parse_key_loop key ln p = Return p.
Proof.
  induction 1 as [|x p Hx Hp IH]; [reflexivity|].
  cbn [parse_key_loop]. unfold check_piece. rewrite Hx. cbn [negb].
  destruct (identifier_first x Hx) as [c [s' [-> Hc]]].
  cbn [first_char bind]. rewrite Hc. cbn [bind]. now rewrite IH.
Qed.

Lemma strip_key_text (p : list string) :
  Forall (fun piece => isidentifier piece = true) p ->
  strip (key_text p) = key_text p.
Proof.
  intros H. apply strip_keep.
  apply (all_chars_impl key_char); [apply key_char_not_space|].
  now apply key_text_chars.
Qed.

(** The dotted text of a path of identifiers parses back to the path. *)
Lemma parse_key_text (p : list string) (ln : option nat) :
  identifier_path p -> parse_key (strip (key_text p)) ln = Return p.
Proof.
  intros Hp. rewrite strip_key_text by apply Hp.
  unfold parse_key. rewrite split_key_text by exact Hp.
  apply parse_key_loop_identifiers, Hp.
Qed.

Lemma key_text_lacks (c : ascii) (p : list string) :
  key_char c = false ->
  Forall (fun piece => isidentifier piece = true) p -> lacks c (key_text p).
Proof.
  intros Hc H. apply (lacks_all_chars c key_char); [exact Hc|].
  now apply key_text_chars.
Qed.

Lemma join_split (c : ascii) (s : string) : join (String c "") (split c s) = s.
Proof.
  induction s as [|x s IH]; [reflexivity|]. cbn [split].
  destruct (split_nonempty c s) as [h [t E]]. rewrite E in *.
  destruct (Ascii.eqb_spec x c) as [->|Hne].
  - change (String c (join (String c "") (h :: t)) = String c s). now rewrite IH.
  - destruct t as [|h' t].
    + cbn [join] in *. now subst.
    + change (String x (join (String c "") (h :: h' :: t)) = String x s).
      now rewrite IH.
Qed.

Lemma parse_key_loop_returns (key : string) (ln : option nat) (pieces p : list string) :
  parse_key_loop key ln pieces = Return p ->
  p = pieces /\ Forall (fun piece => isidentifier piece = true) pieces.
Proof.
  revert p. induction pieces as [|x pieces IH]; intros p H; cbn [parse_key_loop] in H.
  - injection H as <-. now split.
  - unfold check_piece in H. destruct (isidentifier x) eqn:Hx; cbn [negb] in H;
      [|discriminate].
    destruct (check_piece key ln x) eqn:E; unfold check_piece in E; rewrite Hx in E;
      cbn [negb] in E; rewrite E in H; cbn [bind] in H; [|discriminate].
    destruct (parse_key_loop key ln pieces) as [q|e]; cbn [bind] in H; [|discriminate].
    injection H as <-. destruct (IH q eq_refl) as [-> HF]. split; [reflexivity|].
    now constructor.
Qed.

(** The paths [parse_key] returns are the paths of identifiers, and the
    key is their dotted text. *)
Lemma parse_key_returns (key : string) (ln : option nat) (p : list string) :
  parse_key key ln = Return p -> identifier_path p /\ key_text p = key.
Proof.
  unfold parse_key. intros H. apply parse_key_loop_returns in H. destruct H as [-> HF].
  split; [split; [|exact HF]|].
  - destruct (split_nonempty "." key) as [h [t ->]]. discriminate.
  - apply join_split.
Qed.

End KeyFacts.

(* ================================================================= *)
(** ** Documents and the scanner over whole documents *)

Section DocumentFacts.

Import PyStr.

Lemma document_cons (x y : string) (lines : list string) :
  document (x :: y :: lines) = x ++ String newline (document (y :: lines)).
Proof. reflexivity. Qed.

Lemma split_document (lines : list string) :
  lines <> [] -> Forall (lacks newline) lines ->
  split newline (document lines) = lines.
Proof.
  intros Hne H. induction H as [|x lines Hx Hl IH]; [contradiction|].
  destruct lines as [|y lines].
  - apply split_lacks, Hx.
  - rewrite document_cons, split_line_rest by exact Hx.
    rewrite IH; [reflexivity | discriminate].
Qed.

Lemma lacks_document (c : ascii) (lines : list string) :
  lacks c (document lines) -> Forall (lacks c) lines.
Proof.
  induction lines as [|x lines IH]; [constructor|].
  destruct lines as [|y lines].
  - intros H. constructor; [exact H | constructor].
  - rewrite document_cons. intros H. apply lacks_append in H. destruct H as [Hx H].
    apply lacks_cons in H. constructor; [exact Hx | apply IH, H].
Qed.

Lemma document_has_colon (lines : list string) (k v : string) :
  In (k ++ String ":" v) lines -> contains ":" (document lines) = true.
Proof.
  intros Hin. destruct (contains ":" (document lines)) eqn:E; [reflexivity|].
  apply lacks_document in E. rewrite Forall_forall in E.
  specialize (E _ Hin). unfold lacks in E. now rewrite contains_first in E.
Qed.

Lemma parse_value_not_dict (v : string) (ln : option nat) (x : pyobj) :
  parse_value v ln = Return (x, false) -> is_dict x = false.
Proof.
  unfold parse_value.
  repeat match goal with
         | |- context [if ?b then _ else _] => destruct b
         | |- context [match ?o with Some _ => _ | None => _ end] => destruct o
         end;
    intros H; try discriminate H; injection H as <-; reflexivity.
Qed.

(** Every line the scanner accepts keeps the leaves and dictionaries of
    [parsed]. *)
Lemma loads_line_keeps (n : nat) (line : string) (st st' : scan) :
  loads_line n line st = Return st' ->
  forall (P : list string) (x : pyobj),
  lookup P (VDict (parsed st)) = Some x ->
  exists x', lookup P (VDict (parsed st')) = Some x' /\ persists x x'.
Proof.
  intros H P x Hl. unfold loads_line in H.
  destruct (in_a_string st); cbn [negb] in H.
  - destruct (fence_of (bt_count st)) as [fence|e]; cbn [bind] in H; [|discriminate].
    destruct (String.eqb (rstrip line) fence).
    + destruct (String.length (string_value st) =? 0)%nat; [discriminate|].
      destruct (string_key_path st) as [path|]; cbn [bind] in H; [|discriminate].
      destruct (fill_in_value path _ (parsed st)) as [parsed'|e] eqn:F;
        cbn [bind] in H; [|discriminate].
      injection H as <-. cbn [parsed]. exact (fill_in_value_keeps _ _ _ _ F P x Hl).
    + injection H as <-. cbn [parsed]. exists x. split; [exact Hl | apply persists_refl].
  - destruct (String.eqb (strip line) "").
    { injection H as <-. exists x. split; [exact Hl | apply persists_refl]. }
    destruct (negb (contains ":" line)); [discriminate|].
    destruct (split1 ":" line) as [|k [|v [|w l]]]; try discriminate.
    unfold assign in H.
    destruct (parse_key (strip k) _) as [path|e]; cbn [bind] in H; [|discriminate].
    destruct (parse_value (strip v) _) as [[pv is_string]|e]; cbn [bind] in H;
      [|discriminate].
    destruct is_string.
    + injection H as <-. cbn [parsed]. exists x. split; [exact Hl | apply persists_refl].
    + destruct (fill_in_value path pv (parsed st)) as [parsed'|e] eqn:F;
        cbn [bind] in H; [|discriminate].
      injection H as <-. cbn [parsed set_parsed].
      exact (fill_in_value_keeps _ _ _ _ F P x Hl).
Qed.

Lemma loads_loop_keeps (lines : list string) :
  forall (n : nat) (st st' : scan),
  loads_loop n lines st = Return st' ->
  forall (P : list string) (x : pyobj),
  lookup P (VDict (parsed st)) = Some x ->
  exists x', lookup P (VDict (parsed st')) = Some x' /\ persists x x'.
Proof.
  induction lines as [|l lines IH]; intros n st st' H P x Hl; cbn [loads_loop] in H.
  - injection H as <-. exists x. split; [exact Hl | apply persists_refl].
  - destruct (loads_line n l st) as [st1|e] eqn:E; cbn [bind] in H; [|discriminate].
    destruct (loads_line_keeps _ _ _ _ E P x Hl) as [x1 [H1 P1]].
    destruct (IH _ _ _ H P x1 H1) as [x2 [H2 P2]].
    exists x2. split; [exact H2 | exact (persists_trans _ _ _ P1 P2)].
Qed.

(** A scalar assignment line read between assignments hands its path and
    value to [fill_in_value]. *)
Lemma loads_line_scalar (n : nat) (P : list string) (v : string) (x : pyobj)
    (st : scan) :
  identifier_path P -> scalar_token v x -> in_a_string st = false ->
  loads_line n (assignment P v) st =
  (parsed' <- fill_in_value P x (parsed st) ;; Return (set_parsed st parsed')).
Proof.
  intros HP [_ Hv] Hst. unfold assignment.
  change (key_text P ++ ":" ++ v) with (key_text P ++ String ":" v).
  rewrite loads_line_assign; [|exact Hst | apply key_text_lacks; [reflexivity | apply HP]].
  unfold assign. rewrite (parse_key_text P _ HP). cbn [bind].
  now rewrite Hv.
Qed.

(** The opening line of a string block, read between assignments, enters
    the block. *)
Lemma loads_line_opening (n f : nat) (P : list string) (pad extra : string)
    (st : scan) :
  identifier_path P -> 3 <= f ->
  all_chars isspace pad = true -> startswith "`" extra = false ->
  in_a_string st = false ->
  loads_line n (assignment P (pad ++ backticks f ++ extra)) st =
  Return (in_block f "" P (parsed st)).
Proof.
  intros HP Hf Hpad He Hst. unfold assignment.
  change (key_text P ++ ":" ++ ?v) with (key_text P ++ String ":" v).
  rewrite loads_line_assign; [|exact Hst | apply key_text_lacks; [reflexivity | apply HP]].
  apply assign_fence; try assumption. apply parse_key_text, HP.
Qed.

(** The lines of one assignment, read between assignments, hand the path
    and the value to [fill_in_value] and leave the scanner between
    assignments. *)
Lemma assigns_run (ls : list string) (P : list string) (x : pyobj) :
  assigns ls P x ->
  forall (n : nat) (st : scan), in_a_string st = false ->
  exists next : dict -> scan,
    (forall d, in_a_string (next d) = false /\ parsed (next d) = d) /\
    loads_loop n ls st =
    (parsed' <- fill_in_value P x (parsed st) ;; Return (next parsed')).
Proof.
  intros [path v y HP Hv | path f pad extra C HP Hf Hpad _ He _ HC] n st Hst.
  - exists (set_parsed st). split; [intros d; now split|].
    cbn [loads_loop]. rewrite (loads_line_scalar n path v y st HP Hv Hst).
    now destruct (fill_in_value path y (parsed st)).
  - exists between. split; [intros d; now split|].
    cbn [loads_loop]. rewrite (loads_line_opening n f path pad extra st HP Hf Hpad He Hst).
    cbn [bind]. rewrite loads_loop_app, (loads_loop_content f _ _ _ _ _ HC).
    cbn [bind append loads_loop]. unfold content_lines. rewrite unlines_split.
    rewrite loads_line_close by (destruct C; discriminate).
    unfold nl. rewrite drop_last_snoc.
    now destruct (fill_in_value path (VStr C) (parsed st)).
Qed.

Lemma assigns_path (ls : list string) (P : list string) (x : pyobj) :
  assigns ls P x -> identifier_path P.
Proof. now intros [path v y HP Hv | path f pad extra C HP Hf Hpad Hn He Hne HC]. Qed.

Lemma assigns_leaf (ls : list string) (P : list string) (x : pyobj) :
  assigns ls P x -> is_dict x = false.
Proof.
  intros [path v y HP [_ Hv] | path f pad extra C HP Hf Hpad Hn He Hne HC].
  - exact (parse_value_not_dict _ None _ (Hv None)).
  - reflexivity.
Qed.

Lemma split_pieces_lack (c : ascii) (s : string) : Forall (lacks c) (split c s).
Proof.
  induction s as [|x s IH]; cbn [split].
  - constructor; [apply lacks_nil | constructor].
  - destruct (Ascii.eqb_spec x c) as [->|Hne].
    + constructor; [apply lacks_nil | exact IH].
    + destruct (split c s) as [|h t]; constructor.
      * apply lacks_cons. split; [exact Hne | apply lacks_nil].
      * constructor.
      * inversion IH; subst. apply lacks_cons. now split.
      * now inversion IH.
Qed.

Lemma assignment_lacks_newline (P : list string) (v : string) :
  identifier_path P -> lacks newline v -> lacks newline (assignment P v).
Proof.
  intros HP Hv. unfold assignment. apply lacks_append. split.
  - apply key_text_lacks; [reflexivity | apply HP].
  - apply (lacks_append newline ":" v). split; [reflexivity | exact Hv].
Qed.

Lemma assigns_lines (ls : list string) (P : list string) (x : pyobj) :
  assigns ls P x ->
  Forall (lacks newline) ls /\
  exists k v rest, ls = (k ++ String ":" v) :: rest.
Proof.
  intros [path v y HP [Hn Hv] | path f pad extra C HP Hf Hpad Hn He Hne HC]; split.
  - constructor; [now apply assignment_lacks_newline | constructor].
  - now exists (key_text path), v, [].
  - constructor.
    + apply assignment_lacks_newline; [exact HP|].
      apply lacks_append. split; [exact Hn|]. apply lacks_append. split; [|exact Hne].
      apply lacks_repeat_char. discriminate.
    + apply Forall_app. split; [apply split_pieces_lack|].
      constructor; [|constructor]. apply lacks_repeat_char. discriminate.
  - now eexists (key_text path), _, _.
Qed.

(** Once an assignment to [P] is accepted, [P] holds that leaf for as long
    as later lines are accepted. *)
Lemma accepted_leaf (pre ls mid : list string) (P : list string) (x : pyobj)
    (st : scan) :
  assigns ls P x -> accepted pre ->
  loads_loop 0 (pre ++ ls ++ mid) initial_scan = Return st ->
  leaf_at P x (parsed st).
Proof.
  intros Ha [st0 [H0 Hs0]] H.
  rewrite loads_loop_app, H0 in H. cbn [bind] in H.
  rewrite loads_loop_app in H.
  destruct (assigns_run ls P x Ha (0 + length pre) st0 Hs0) as [next [Hnext E]].
  rewrite E in H. clear E.
  destruct (fill_in_value P x (parsed st0)) as [parsed'|e] eqn:F;
    cbn [bind] in H; [|discriminate].
  pose proof (fill_in_value_sets P x _ _ (proj1 (assigns_path _ _ _ Ha)) F) as Hl.
  rewrite <- (proj2 (Hnext parsed')) in Hl.
  destruct (loads_loop_keeps _ _ _ _ H P x Hl) as [x' [Hl' Hp]].
  pose proof (assigns_leaf _ _ _ Ha) as Hx.
  unfold persists in Hp. rewrite Hx in Hp. subst x'. now split.
Qed.

(** Once an assignment below [P] is accepted, [P] holds a dictionary for as
    long as later lines are accepted. *)
Lemma accepted_container (pre ls mid : list string) (P Q : list string)
    (x : pyobj) (st : scan) :
  Q <> [] -> assigns ls (P ++ Q) x -> accepted pre ->
  loads_loop 0 (pre ++ ls ++ mid) initial_scan = Return st ->
  container_at P (parsed st).
Proof.
  intros HQ Ha [st0 [H0 Hs0]] H.
  rewrite loads_loop_app, H0 in H. cbn [bind] in H.
  rewrite loads_loop_app in H.
  destruct (assigns_run ls _ x Ha (0 + length pre) st0 Hs0) as [next [Hnext E]].
  rewrite E in H. clear E.
  destruct (fill_in_value (P ++ Q) x (parsed st0)) as [parsed'|e] eqn:F;
    cbn [bind] in H; [|discriminate].
  pose proof (fill_in_value_sets _ x _ _ (proj1 (assigns_path _ _ _ Ha)) F) as Hl.
  destruct (lookup_container P Q x parsed' HQ Hl) as [d Hd].
  rewrite <- (proj2 (Hnext parsed')) in Hd.
  destruct (loads_loop_keeps _ _ _ _ H P _ Hd) as [x' [Hl' Hp]].
  unfold persists in Hp. cbn [is_dict] in Hp.
  destruct x' as [| | | | | | |d']; try discriminate. now exists d'.
Qed.

(** The Python implementation on a document given by its lines. *)
Lemma loads_python_document (lines : list string) (k v : string) :
  Forall (lacks newline) lines -> In (k ++ String ":" v) lines ->
  loads_python (document lines) =
  (st <- loads_loop 0 lines initial_scan ;;
   if in_a_string st then
     Raise (STCParseError UnterminatedStringBlock (Some (length lines)))
   else finalize_dict (parsed st) "").
Proof.
  intros Hl Hin. unfold loads_python.
  destruct (strip_with_colon _ (document_has_colon _ _ _ Hin)) as [_ Hne].
  apply String.eqb_neq in Hne. rewrite Hne.
  rewrite split_document; [reflexivity | | exact Hl].
  intros ->. contradiction.
Qed.

(** The decode stops with the exception that [fill_in_value] raises on the
    second assignment of a pair. *)
Lemma loads_stops_at (before ls post : list string) (P : list string)
    (x : pyobj) (st : scan) (e : exn) :
  Forall (lacks newline) (before ++ post) ->
  assigns ls P x ->
  loads_loop 0 before initial_scan = Return st -> in_a_string st = false ->
  fill_in_value P x (parsed st) = Raise e ->
  loads_python (document (before ++ ls ++ post)) = Raise e.
Proof.
  intros Hl Ha Hst Hs Hf.
  destruct (assigns_lines _ _ _ Ha) as [Hls [k [v [rest Els]]]].
  apply Forall_app in Hl. destruct Hl as [Hb Hp].
  rewrite (loads_python_document _ k v).
  - rewrite loads_loop_app, Hst. cbn [bind]. rewrite loads_loop_app.
    destruct (assigns_run ls P x Ha (0 + length before) st Hs) as [next [_ E]].
    rewrite E, Hf. reflexivity.
  - rewrite !Forall_app. auto.
  - apply in_or_app. right. apply in_or_app. left. rewrite Els. now left.
Qed.

End DocumentFacts.

(* ================================================================= *)
(** ** Properties of the decoder *)

Section KeyPaths.

Import PyStr.

(** A key with a piece that begins with a dollar sign never gets past the
    identifier test of [parse_key]. *)
Lemma parse_key_loop_dollar (key : string) (ln : option nat) (pieces : list string) :
  Exists (fun piece => startswith "$" piece = true) pieces ->
  parse_key_loop key ln pieces =
  Raise (STCParseError (InvalidKeySegment_identifier key) ln).
Proof.
  induction 1 as [piece rest H | piece rest H IH]; cbn [parse_key_loop].
  - apply startswith_cons in H. destruct H as [s [-> _]]. reflexivity.
  - unfold check_piece. destruct (isidentifier piece) eqn:E; cbn [negb]; [|reflexivity].
    destruct (identifier_first piece E) as [c [s [-> Hc]]].
    cbn [first_char bind]. rewrite Hc. cbn [bind]. now rewrite IH.
Qed.

(** C1 (code defect): index segments never reach the tree builder.  A
    piece that begins with a dollar sign fails [str.isidentifier], so
    [parse_key] refuses every key that has such a piece, be it the first
    piece or a later one, before its own [$] branch is reached; the two
    documents that should decode to the list [[1, 2]] under key [a] are both
    refused at their first line. *)
Theorem C1_index_segments_refused :
  (forall (rest : string) (ln : option nat),
     parse_key (String "$" rest) ln =
     Raise (STCParseError (InvalidKeySegment_identifier (String "$" rest)) ln)) /\
  (forall (before rest : string) (ln : option nat),
     parse_key (before ++ String "." (String "$" rest)) ln =
     Raise (STCParseError
              (InvalidKeySegment_identifier (before ++ String "." (String "$" rest)))
              ln)) /\
  (forall rust_loads,
     loads rust_loads (document ["a.$1: 2"; "a.$0: 1"]) "python" =
     Raise (STCParseError (InvalidKeySegment_identifier "a.$1") (Some 1))) /\
  (forall rust_loads,
     loads rust_loads (document ["a.$0: 1"; "a.$1: 2"]) "python" =
     Raise (STCParseError (InvalidKeySegment_identifier "a.$0") (Some 1))).
Proof.
  assert (Hd : forall rest,
             Exists (fun piece => startswith "$" piece = true)
                    (split "." (String "$" rest))).
  { intros rest. cbn [split]. change (Ascii.eqb "$" ".") with false. cbn iota.
    destruct (split_nonempty "." rest) as [h [t ->]]. apply Exists_cons_hd.
    apply startswith_cons. exists h. split; [reflexivity | apply startswith_nil]. }
  split; [|split; [|split]].
  - intros rest ln. apply parse_key_loop_dollar, Hd.
  - intros before rest ln. unfold parse_key. rewrite split_append_sep.
    apply parse_key_loop_dollar, Exists_app. right. apply Hd.
  - reflexivity.
  - reflexivity.
Qed.

End KeyPaths.

Section Blocks.

Import PyStr.


(** C2 (amended): for every content [C] none of whose lines, once
    right-trimmed of white space, consists solely of [f] or more backticks,
    and every [f >= 3], decoding the block [a: <f backticks>], [C],
    [<f backticks>] yields exactly [{"a": C}]. *)
Theorem C2_string_block_roundtrip :
  forall (rust_loads : option (string -> result pyobj)) (C : string) (f : nat),
    3 <= f ->
    (forall l, In l (content_lines C) ->
               ~ (backtick_only (rstrip l) = true /\ f <= String.length (rstrip l))) ->
    loads rust_loads (fenced f C) "python" = Return (VDict [("a", VStr C)]).
Proof.
  intros rust_loads C f Hf H.
  change (loads rust_loads (fenced f C) "python") with (loads_python (fenced f C)).
  apply string_block_roundtrip_exact; [exact Hf|].
  intros l Hl E. apply (H l Hl). rewrite E. split.
  - apply all_chars_backticks. reflexivity.
  - rewrite length_backticks. lia.
Qed.


End Blocks.

Section Duplicates.

(** Assigning a one-segment path twice never reaches the duplicate message:
    the loop variable [piece] was never bound. *)
Lemma fill_in_value_twice_top (k : string) (v x : pyobj) (parsed : dict) :
  leaf_at [k] x parsed ->
  fill_in_value [k] v parsed = Raise (UnboundLocalError "piece").
Proof.
  intros [H Hx]. cbn [lookup] in H.
  destruct (dict_get k parsed) as [y|] eqn:E; [|discriminate]. injection H as ->.
  unfold fill_in_value. cbn [removelast fill_in_from rev app].
  rewrite E. destruct x; try reflexivity. discriminate Hx.
Qed.

(** C3 (code defect): a path assigned twice makes the decode fail, but not
    with a parse error.  The message of the duplicate branch reads
    [current[piece]], where [piece] is the loop variable of the walk over
    [path[:-1]].  For a one-segment path [k] the variable is unbound: wherever
    the two assignments ([first], [second]) stand in a document whose earlier
    lines are accepted, the decode raises [UnboundLocalError].  For a longer
    path [piece] is looked up in the wrong dictionary: the second document
    raises [KeyError]. *)
Theorem C3_duplicate_raises_foreign_exception :
  forall rust_loads : option (string -> result pyobj),
    (forall (pre mid post first second : list string) (k : string) (x1 x2 : pyobj),
       assigns first [k] x1 -> assigns second [k] x2 ->
       Forall (lacks PyStr.newline) (pre ++ mid ++ post) ->
       accepted pre -> accepted (pre ++ first ++ mid) ->
       loads rust_loads (document (pre ++ first ++ mid ++ second ++ post)) "python" =
       Raise (UnboundLocalError "piece")) /\
    loads rust_loads (document ["a: 1"; "a: 2"]) "python" =
    Raise (UnboundLocalError "piece") /\
    loads rust_loads (document ["a.b: 1"; "a.b: 2"]) "python" =
    Raise (KeyError "a").
Proof.
  intros rust_loads. split; [|split; reflexivity].
  intros pre mid post first second k x1 x2 H1 H2 Hl Hpre [st [Hst Hs]].
  apply Forall_app in Hl. destruct Hl as [Hlpre Hl].
  apply Forall_app in Hl. destruct Hl as [Hlmid Hlpost].
  change (loads rust_loads ?d "python") with (loads_python d).
  replace (pre ++ first ++ mid ++ second ++ post)%list
    with ((pre ++ first ++ mid) ++ second ++ post)%list
    by (rewrite <- !app_assoc; reflexivity).
  apply (loads_stops_at _ _ _ [k] x2 st); try assumption.
  - rewrite !Forall_app. repeat split; try assumption.
    apply (assigns_lines _ _ _ H1).
  - apply (fill_in_value_twice_top k x2 x1).
    exact (accepted_leaf pre first mid [k] x1 st H1 Hpre Hst).
Qed.


End Duplicates.

Section Lists.

(** C4 (code defect): the list test compares only the least and the greatest
    index with [0] and [n - 1].  With the keys [$0], [$00] and [$2] the
    indices are [0, 0, 2]: one duplicate and one gap, yet the test passes and
    the list comes back with position 1 left at [None]. *)
Theorem C4_gap_and_duplicate_accepted :
  finalize_dict [("$0", VInt 1); ("$00", VInt 2); ("$2", VInt 3)] "a" =
  Return (VList [VInt 2; VNone; VInt 3]).
Proof. reflexivity. Qed.

End Lists.

Section Literals.

Import PyStr.


Lemma loads_single_assignment (v : string) :
  lacks newline v ->
  loads_python ("a: " ++ v) =
  (st <- assign 0 "a" (" " ++ v) initial_scan ;;
   if in_a_string st then Raise (STCParseError UnterminatedStringBlock (Some 1))
   else finalize_dict (parsed st) "").
Proof.
  intros Hv. change ("a: " ++ v) with (document ["a" ++ String ":" (" " ++ v)]).
  rewrite (loads_python_document _ "a" (" " ++ v)).
  - cbn [loads_loop]. rewrite loads_line_assign by reflexivity.
    destruct (assign 0 "a" (" " ++ v) initial_scan); reflexivity.
  - constructor; [|constructor]. apply (lacks_append newline "a: " v).
    split; [reflexivity | exact Hv].
  - now left.
Qed.

(** C5 (amended): a value token that begins with a backtick but not with
    three, other than [`true`] and [`false`], is refused by [parse_value] at
    once with the invalid-value error of its line; a document [a: <token>]
    therefore fails at line 1 with that error, not for want of a closing
    fence. *)
Theorem C5_backtick_token_refused :
  forall (rust_loads : option (string -> result pyobj)) (v : string),
    startswith "`" v = true -> startswith "```" v = false ->
    v <> "`true`" -> v <> "`false`" ->
    (forall ln, parse_value v ln = Raise (STCParseError (InvalidValueLiteral v) ln)) /\
    (lacks newline v -> strip v = v ->
     loads rust_loads ("a: " ++ v) "python" =
     Raise (STCParseError (InvalidValueLiteral v) (Some 1))).
Proof.
  intros rust_loads v H1 H3 Ht Hf. split.
  - intros ln. now apply parse_value_backtick_refused.
  - intros Hnl Hs.
    change (loads rust_loads ("a: " ++ v) "python") with (loads_python ("a: " ++ v)).
    rewrite (loads_single_assignment v Hnl). unfold assign.
    change (parse_key (strip "a") (Some (0 + 1))) with (@Return (list string) ["a"]).
    cbn [bind].
    change (strip (" " ++ v)) with (strip v). rewrite Hs.
    now rewrite (parse_value_backtick_refused v _ H1 H3 Ht Hf).
Qed.


End Literals.

Section Conflicts.

Import PyStr.

(** X18: prefix conflicts between keys the decoder reads.  When the key
    path of one assignment strictly extends the key path of another, both
    being paths of identifiers, the decode fails at the second of the two
    with the leaf/container conflict error that names the shorter path, in
    either order of appearance.  [to_P] and [to_PQ] are the lines of the two
    assignments (a scalar line or a string block each); the pair may stand
    anywhere in the document: [pre], [mid] and [post] are the lines before,
    between and after, and the scanner is assumed to accept the lines that
    come before the second assignment. *)
Theorem X18_prefix_conflict :
  forall (rust_loads : option (string -> result pyobj))
         (pre mid post to_P to_PQ : list string) (P Q : list string)
         (x1 x2 : pyobj),
    assigns to_P P x1 -> assigns to_PQ (P ++ Q) x2 -> Q <> [] ->
    Forall (lacks newline) (pre ++ mid ++ post) ->
    accepted pre ->
    (accepted (pre ++ to_P ++ mid) ->
     loads rust_loads (document (pre ++ to_P ++ mid ++ to_PQ ++ post)) "python" =
     Raise (STCParseError (ConflictingContainerAndLeaf (key_text P)) None)) /\
    (accepted (pre ++ to_PQ ++ mid) ->
     loads rust_loads (document (pre ++ to_PQ ++ mid ++ to_P ++ post)) "python" =
     Raise (STCParseError (ConflictingContainerAndLeaf_direct (key_text P)) None)).
Proof.
  intros rust_loads pre mid post to_P to_PQ P Q x1 x2 HaP HaPQ HQ Hl Hpre.
  pose proof (assigns_path _ _ _ HaP) as HP.
  apply Forall_app in Hl. destruct Hl as [Hlpre Hl].
  apply Forall_app in Hl. destruct Hl as [Hlmid Hlpost].
  split; intros [st [Hst Hs]];
    change (loads rust_loads ?d "python") with (loads_python d).
  - replace (pre ++ to_P ++ mid ++ to_PQ ++ post)%list
      with ((pre ++ to_P ++ mid) ++ to_PQ ++ post)%list
      by (rewrite <- !app_assoc; reflexivity).
    apply (loads_stops_at _ _ _ (P ++ Q) x2 st); try assumption.
    + rewrite !Forall_app. repeat split; try assumption.
      apply (assigns_lines _ _ _ HaP).
    + apply (fill_in_value_leaf P Q x2 x1); [apply HP | exact HQ|].
      exact (accepted_leaf pre to_P mid P x1 st HaP Hpre Hst).
  - replace (pre ++ to_PQ ++ mid ++ to_P ++ post)%list
      with ((pre ++ to_PQ ++ mid) ++ to_P ++ post)%list
      by (rewrite <- !app_assoc; reflexivity).
    apply (loads_stops_at _ _ _ P x1 st); try assumption.
    + rewrite !Forall_app. repeat split; try assumption.
      apply (assigns_lines _ _ _ HaPQ).
    + apply fill_in_value_container; [apply HP|].
      exact (accepted_container pre to_PQ mid P Q x2 st HQ HaPQ Hpre Hst).
Qed.


End Conflicts.


Section Engine.

(** C8: with the extension module missing ([rust_loads] is [None]) and the
    Rust engine requested, which is what the default [impl] requests, every
    call raises [NotImplementedError].  That is no [STCParseError], and the
    Python implementation is not run in its place: a document it decodes is
    refused all the same. *)
Theorem C8_engine_unavailable :
  forall stc_str : string,
    loads None stc_str "rust" =
    Raise (NotImplementedError "Rust implementation is not available.") /\
    loads_default None stc_str =
    Raise (NotImplementedError "Rust implementation is not available.") /\
    (forall e ln,
       NotImplementedError "Rust implementation is not available." <> STCParseError e ln) /\
    loads None "a: 1" "python" = Return (VDict [("a", VInt 1)]) /\
    loads_default None "a: 1" <> loads None "a: 1" "python".
Proof.
  intros stc_str. repeat split; try reflexivity; discriminate.
Qed.

End Engine.

Section OpeningFence.

Import PyStr.

(** After an opening line [a: <f backticks><extra>] the scanner is inside
    the block with a fence of [f] backticks, whatever [extra] is. *)
Lemma loads_after_opening (f : nat) (extra rest : string) :
  3 <= f -> startswith "`" extra = false -> lacks newline extra ->
  loads_python ("a: " ++ backticks f ++ extra ++ nl ++ rest) =
  (st <- loads_loop 1 (split newline rest) (in_block f "" ["a"] []) ;;
   if in_a_string st then
     Raise (STCParseError UnterminatedStringBlock
              (Some (S (length (split newline rest)))))
   else finalize_dict (parsed st) "").
Proof.
  intros Hf He Hn. unfold loads_python.
  assert (Hc : contains ":" ("a: " ++ backticks f ++ extra ++ nl ++ rest) = true)
    by apply (contains_first ":" "a").
  destruct (strip_with_colon _ Hc) as [_ Hne].
  apply String.eqb_neq in Hne. rewrite Hne. clear Hne Hc.
  assert (E : "a: " ++ backticks f ++ extra ++ nl ++ rest =
              ("a: " ++ backticks f ++ extra) ++ String newline rest).
  { unfold nl. now rewrite !append_assoc. }
  rewrite E, split_line_rest.
  - cbn [loads_loop length].
    change ("a: " ++ backticks f ++ extra)
      with ("a" ++ String ":" (" " ++ backticks f ++ extra)).
    rewrite loads_line_assign by reflexivity.
    rewrite (assign_fence 0 f "a" " " extra ["a"]) by (reflexivity || assumption).
    reflexivity.
  - apply (lacks_append newline "a: "). split; [reflexivity|].
    apply lacks_append. split; [|exact Hn].
    apply lacks_repeat_char. discriminate.
Qed.

(** C9: on a value token that begins with [f >= 3] backticks only the length
    of the run counts.  Whatever follows the run on the opening line
    ([extra], not itself beginning with a backtick) is dropped: the token is
    read as a block start with fence [f], the decode of a document does not
    depend on [extra], and a well-formed block decodes to its content. *)
Theorem C9_text_after_opening_fence_dropped :
  forall (rust_loads : option (string -> result pyobj)) (f : nat) (extra : string),
    3 <= f -> startswith "`" extra = false -> lacks newline extra ->
    (forall ln,
       parse_value (backticks f ++ extra) ln = Return (VInt (Z.of_nat f), true)) /\
    (forall rest,
       loads rust_loads ("a: " ++ backticks f ++ extra ++ nl ++ rest) "python" =
       loads rust_loads ("a: " ++ backticks f ++ nl ++ rest) "python") /\
    (forall C,
       (forall l, In l (content_lines C) -> rstrip l <> backticks f) ->
       loads rust_loads
         ("a: " ++ backticks f ++ extra ++ nl ++ C ++ nl ++ backticks f) "python" =
       Return (VDict [("a", VStr C)])).
Proof.
  intros rust_loads f extra Hf He Hn.
  assert (Hsame : forall rest,
             loads_python ("a: " ++ backticks f ++ extra ++ nl ++ rest) =
             loads_python ("a: " ++ backticks f ++ nl ++ rest)).
  { intros rest. rewrite (loads_after_opening f extra rest Hf He Hn).
    change ("a: " ++ backticks f ++ nl ++ rest)
      with ("a: " ++ backticks f ++ "" ++ nl ++ rest).
    now rewrite (loads_after_opening f "" rest Hf). }
  split; [|split].
  - intros ln. now apply parse_value_fence.
  - intros rest. apply Hsame.
  - intros C HC.
    change (loads rust_loads ?d "python") with (loads_python d).
    rewrite Hsame. now apply string_block_roundtrip_exact.
Qed.


End OpeningFence.


Section Numbers.

(** C10: the numeric values of [parse_value] are exactly those of [int]
    and then [float]: a token [int] accepts is that integer, a token only
    [float] accepts is that float, and no other token yields a number.  This
    is wider than decimal and scientific notation: [1_000] decodes to the
    integer 1000 and [inf] to the float infinity. *)
Theorem C10_numbers_are_int_then_float :
  (forall v ln z, PyNum.int v = Some z -> parse_value v ln = Return (VInt z, false)) /\
  (forall v ln x, PyNum.int v = None -> PyNum.float v = Some x ->
                  parse_value v ln = Return (VFloat x, false)) /\
  (forall v ln z, parse_value v ln = Return (VInt z, false) -> PyNum.int v = Some z) /\
  (forall v ln x, parse_value v ln = Return (VFloat x, false) ->
                  PyNum.int v = None /\ PyNum.float v = Some x) /\
  (forall rust_loads,
     loads rust_loads "a: 1_000" "python" = Return (VDict [("a", VInt 1000)])) /\
  (forall rust_loads,
     loads rust_loads "a: inf" "python" =
     Return (VDict [("a", VFloat (PyNum.FInf false))])).
Proof.
  assert (Hlit : forall v, (PyNum.int v <> None \/ PyNum.float v <> None) ->
                           String.eqb v "`true`" = false /\ String.eqb v "`false`" = false /\
                           String.eqb v "[]" = false /\ String.eqb v "{}" = false).
  { intros v H. repeat split; apply String.eqb_neq; intros ->;
      destruct H as [H|H]; apply H; reflexivity. }
  split; [|split; [|split; [|split; [|split]]]].
  - intros v ln z H. unfold parse_value.
    destruct (Hlit v) as [-> [-> [-> ->]]]; [left; congruence|]. now rewrite H.
  - intros v ln x Hi Hf. unfold parse_value.
    destruct (Hlit v) as [-> [-> [-> ->]]]; [right; congruence|]. now rewrite Hi, Hf.
  - intros v ln z. unfold parse_value.
    repeat match goal with
           | |- context [if ?b then _ else _] => destruct b
           | |- context [match ?o with Some _ => _ | None => _ end] => destruct o eqn:?
           end; intros H; try discriminate H; injection H as <-; reflexivity.
  - intros v ln x. unfold parse_value.
    repeat match goal with
           | |- context [if ?b then _ else _] => destruct b
           | |- context [match ?o with Some _ => _ | None => _ end] => destruct o eqn:?
           end; intros H; try discriminate H; injection H as <-; now split.
  - intros rust_loads. reflexivity.
  - intros rust_loads. reflexivity.
Qed.


End Numbers.

(* ================================================================= *)
(** ** Further properties: the finalizer *)

Section FinalizeFacts.

Import PyStr.

(** [finalize_dict] in terms of its two loops. *)
Lemma finalize_dict_unfold (d : dict) (prefix : string) :
  finalize_dict d prefix =
  match d with
  | [] => Return (VDict d)
  | (k0, _) :: _ =>
      c0 <- first_char k0 ;;
      if Ascii.eqb c0 "$" then
        mixed <- any_first_char (fun c => negb (Ascii.eqb c "$")) (keys d) ;;
        if mixed then raise_parse_error (MixedListDictKeys prefix) None
        else
          all_indices <- indices_of (keys d) ;;
          if negb (list_min all_indices =? 0)%Z
             || negb (list_max all_indices =? Z.of_nat (length all_indices) - 1)%Z
          then raise_parse_error (ListGapOrDuplicate prefix) None
          else
            list_data <- fill_list prefix d (repeat VNone (length all_indices)) ;;
            Return (VList list_data)
      else
        mixed <- any_first_char (fun c => Ascii.eqb c "$") (keys d) ;;
        if mixed then raise_parse_error (MixedListDictKeys prefix) None
        else
          d' <- each_item prefix d ;;
          Return (VDict d')
  end.
Proof.
  unfold finalize_dict. destruct d as [|[k0 x0] d0]; [reflexivity|].
  cbn [finalize]. set (d := (k0, x0) :: d0).
  destruct (first_char k0) as [c0|e]; cbn [bind]; [|reflexivity].
  destruct (Ascii.eqb c0 "$").
  - destruct (any_first_char _ (keys d)) as [[|]|e]; cbn [bind]; try reflexivity.
    destruct (indices_of (keys d)) as [idx|e]; cbn [bind]; [|reflexivity].
    destruct (negb _ || negb _); [reflexivity|].
    assert (H : forall items acc,
               (fix fill (items : list (string * pyobj)) (list_data : list pyobj)
                  {struct items} : result (list pyobj) :=
                  match items with
                  | [] => Return list_data
                  | (key, x) :: items' =>
                      index <- int_of_str (tail key) ;;
                      y <- match x with
                           | VDict _ => finalize x (child_prefix prefix key)
                           | VEmpty e => Return (EmptyObject_value e)
                           | _ => Return x
                           end ;;
                      list_data' <- list_setitem list_data index y ;;
                      fill items' list_data'
                  end) items acc = fill_list prefix items acc).
    { induction items as [|[key x] items IH]; intros acc; [reflexivity|].
      cbn [fill_list]. unfold finalize_child.
      destruct (int_of_str (tail key)); cbn [bind]; [|reflexivity].
      destruct x; cbn [bind]; try (destruct (list_setitem acc a _); cbn [bind]; auto).
      all: match goal with
           | |- context [finalize ?v ?p] =>
               destruct (finalize v p); cbn [bind]; auto;
               destruct (list_setitem acc a _); cbn [bind]; auto
           end. }
    rewrite <- H. reflexivity.
  - destruct (any_first_char _ (keys d)) as [[|]|e]; cbn [bind]; try reflexivity.
    assert (H : forall items,
               (fix each (items : list (string * pyobj)) : result dict :=
                  match items with
                  | [] => Return []
                  | (key, x) :: items' =>
                      y <- match x with
                           | VDict _ => finalize x (child_prefix prefix key)
                           | VEmpty e => Return (EmptyObject_value e)
                           | _ => Return x
                           end ;;
                      rest <- each items' ;;
                      Return ((key, y) :: rest)
                  end) items = each_item prefix items).
    { induction items as [|[key x] items IH]; [reflexivity|].
      cbn [each_item]. unfold finalize_child.
      destruct x; cbn [bind]; rewrite IH; reflexivity. }
    rewrite <- H. reflexivity.
Qed.

End FinalizeFacts.

(* ================================================================= *)
(** ** Further properties: keys and value tokens *)

Section KeyAndValueFacts.

Import PyStr.

Lemma parse_key_loop_closed (key : string) (ln : option nat) (pieces : list string) :
  parse_key_loop key ln pieces =
  if forallb isidentifier pieces then Return pieces
  else Raise (STCParseError (InvalidKeySegment_identifier key) ln).
Proof.
  induction pieces as [|x pieces IH]; [reflexivity|].
  cbn [parse_key_loop forallb]. unfold check_piece.
  destruct (isidentifier x) eqn:Hx; cbn [negb andb]; [|reflexivity].
  destruct (identifier_first x Hx) as [c [s [-> Hc]]].
  cbn [first_char bind]. rewrite Hc. cbn [bind]. rewrite IH.
  now destruct (forallb isidentifier pieces).
Qed.

(** X1: [parse_key] and the dotted text of a path are inverse to each
    other: [parse_key] returns [p] for the key [key] exactly when [p] is a
    non-empty path of identifiers whose dotted text is [key]. *)
Theorem X1_parse_key_round_trip :
  forall (key : string) (ln : option nat) (p : list string),
    parse_key key ln = Return p <-> (identifier_path p /\ key_text p = key).
Proof.
  intros key ln p. split.
  - apply parse_key_returns.
  - intros [Hp <-]. unfold parse_key. rewrite split_key_text by exact Hp.
    apply parse_key_loop_identifiers, Hp.
Qed.

Lemma X1_parse_key_round_trip_witness :
  parse_key "a.b_1.c" (Some 4) = Return ["a"; "b_1"; "c"] /\
  key_text ["a"; "b_1"; "c"] = "a.b_1.c".
Proof.
  split.
  - apply (X1_parse_key_round_trip "a.b_1.c" (Some 4) ["a"; "b_1"; "c"]).
    split; [|reflexivity]. split; [discriminate|].
    repeat constructor.
  - apply (proj1 (X1_parse_key_round_trip "a.b_1.c" None ["a"; "b_1"; "c"])).
    reflexivity.
Defined.

(** X2: [parse_key] has two outcomes only.  When every piece between the
    dots is an identifier it returns the pieces; otherwise it raises the
    "must be a valid identifier" error for the whole key, with the line
    number it was given.  The two list-index errors and the exceptions of
    [piece[0]] and [int] are never raised. *)
Theorem X2_parse_key_outcomes :
  forall (key : string) (ln : option nat),
    parse_key key ln =
    if forallb isidentifier (split "." key) then Return (split "." key)
    else Raise (STCParseError (InvalidKeySegment_identifier key) ln).
Proof. intros key ln. apply parse_key_loop_closed. Qed.

(** Every text is a run of backticks followed by a text that does not begin
    with one. *)
Lemma backtick_run (v : string) :
  exists n rest, v = backticks n ++ rest /\ startswith "`" rest = false.
Proof.
  induction v as [|c v [n [rest [E H]]]].
  - now exists 0, "".
  - destruct (Ascii.eqb_spec c backtick) as [->|Hne].
    + exists (S n), rest. split; [|exact H]. cbn. now rewrite E.
    + exists 0, (String c v). split; [reflexivity|].
      unfold startswith. cbn [prefix].
      destruct (ascii_dec "`" c) as [<-|_]; [now contradiction Hne | reflexivity].
Qed.

Lemma startswith_backticks3 (n : nat) (rest : string) :
  startswith "`" rest = false ->
  startswith "```" (backticks n ++ rest) = true -> 3 <= n.
Proof.
  intros Hr H.
  assert (Hno : forall p, startswith (String "`" p) rest = true -> False).
  { intros p Hp. apply startswith_cons in Hp. destruct Hp as [s [-> _]].
    unfold startswith in Hr. cbn in Hr. destruct s; discriminate. }
  destruct n as [|[|[|n]]]; try lia; cbn [backticks repeat_char append] in H.
  - now apply Hno in H.
  - apply startswith_cons in H. destruct H as [s [E H]].
    injection E as <-. now apply Hno in H.
  - apply startswith_cons in H. destruct H as [s [E H]]. injection E as <-.
    apply startswith_cons in H. destruct H as [s [E H]]. injection E as <-.
    now apply Hno in H.
Qed.

(** X3: [parse_value] reports the start of a string block exactly for the
    tokens that begin with three or more backticks, and the count it returns
    is the full length of that leading run; a run of one or two backticks
    never opens a block. *)
Theorem X3_parse_value_block_start :
  forall (v : string) (ln : option nat) (x : pyobj),
    parse_value v ln = Return (x, true) <->
    exists n rest,
      3 <= n /\ v = backticks n ++ rest /\ startswith "`" rest = false /\
      x = VInt (Z.of_nat n).
Proof.
  intros v ln x. split.
  - intros H. destruct (backtick_run v) as [n [rest [E Hr]]].
    assert (H3 : startswith "```" v = true).
    { unfold parse_value in H.
      repeat match type of H with
             | (if ?b then _ else _) = _ => destruct b eqn:?
             | match ?o with Some _ => _ | None => _ end = _ => destruct o eqn:?
             end; try discriminate H.
      now apply negb_false_iff. }
    subst v. pose proof (startswith_backticks3 n rest Hr H3) as Hn.
    rewrite (parse_value_fence n rest ln Hn Hr) in H. injection H as <-.
    now exists n, rest.
  - intros [n [rest [Hn [-> [Hr ->]]]]]. now apply parse_value_fence.
Qed.

Lemma X3_parse_value_block_start_witness :
  parse_value "````md" (Some 1) = Return (VInt 4, true) /\
  forall x, parse_value "``x``" (Some 1) <> Return (x, true).
Proof.
  split.
  - apply (X3_parse_value_block_start "````md" (Some 1) (VInt 4)).
    exists 4, "md". repeat split. lia.
  - intros x H.
    apply (X3_parse_value_block_start "``x``" (Some 1) x) in H.
    destruct H as [n [rest [Hn [E _]]]].
    destruct n as [|[|[|n]]]; try lia. discriminate E.
Defined.

End KeyAndValueFacts.

(* ================================================================= *)
(** ** Further properties: the tree builder *)

Section TreeBuilderFacts.

Lemma fill_in_value_nil (v : pyobj) (parsed : dict) :
  fill_in_value [] v parsed = Raise IndexError.
Proof. reflexivity. Qed.

(** X4: insert and look up.  After a successful [fill_in_value] the value is
    found at its path, every leaf that was in the tree is still there
    unchanged, and every dictionary is still a dictionary: nothing is
    overwritten or removed. *)
Theorem X4_fill_in_value_lookup :
  forall (path : list string) (v : pyobj) (parsed parsed' : dict),
    fill_in_value path v parsed = Return parsed' ->
    lookup path (VDict parsed') = Some v /\
    (forall (P : list string) (x : pyobj),
       lookup P (VDict parsed) = Some x ->
       exists x', lookup P (VDict parsed') = Some x' /\ persists x x').
Proof.
  intros path v parsed parsed' H. split.
  - apply (fill_in_value_sets path v parsed parsed'); [|exact H].
    intros ->. rewrite fill_in_value_nil in H. discriminate H.
  - exact (fill_in_value_keeps path v parsed parsed' H).
Qed.

Lemma X4_fill_in_value_lookup_witness :
  lookup ["a"; "c"] (VDict [("a", VDict [("b", VInt 1); ("c", VInt 2)])]) = Some (VInt 2) /\
  exists x', lookup ["a"; "b"] (VDict [("a", VDict [("b", VInt 1); ("c", VInt 2)])]) = Some x'
             /\ persists (VInt 1) x'.
Proof.
  destruct (X4_fill_in_value_lookup ["a"; "c"] (VInt 2)
              [("a", VDict [("b", VInt 1)])]
              [("a", VDict [("b", VInt 1); ("c", VInt 2)])] eq_refl) as [H1 H2].
  split; [exact H1|]. apply H2. reflexivity.
Defined.

Lemma fill_in_from_succeeds (v : pyobj) :
  forall (p pre : list string) (piece : option string) (current : dict),
  lookup p (VDict current) = None ->
  (forall P Q x, p = (P ++ Q)%list -> P <> [] -> Q <> [] ->
                 lookup P (VDict current) = Some x -> is_dict x = true) ->
  exists current',
    fill_in_from (pre ++ p) v (length pre) (removelast p) piece current = Return current'.
Proof.
  induction p as [|a p IH]; intros pre piece current Hl Hp; [discriminate Hl|].
  cbn [lookup] in Hl. destruct p as [|b p].
  - cbn [removelast fill_in_from]. rewrite rev_app_distr. cbn [rev app].
    destruct (dict_get a current) as [y|]; [discriminate Hl|]. eauto.
  - rewrite removelast_cons2. cbn [fill_in_from].
    specialize (IH (pre ++ [a])%list (Some a)).
    rewrite length_app in IH. cbn [length] in IH.
    rewrite Nat.add_1_r in IH. rewrite <- !app_assoc in IH. cbn [app] in IH.
    destruct (dict_get a current) as [y|] eqn:E.
    + assert (Hy : is_dict y = true).
      { apply (Hp [a] (b :: p)); try discriminate; [reflexivity|].
        cbn [lookup]. now rewrite E. }
      destruct y as [| | | | | | |child]; try discriminate Hy.
      destruct (IH child) as [sub Hsub]; [exact Hl| |rewrite Hsub; cbn [bind]; eauto].
      intros P Q x EP HP HQ HlP. apply (Hp (a :: P) Q); try assumption.
      * cbn [app]. now rewrite EP.
      * discriminate.
      * cbn [lookup]. now rewrite E.
    + destruct (IH []) as [sub Hsub]; [reflexivity| |rewrite Hsub; cbn [bind]; eauto].
      intros [|k P] Q x _ HP _ HlP; [contradiction | discriminate HlP].
Qed.

Lemma fill_in_from_success_inv (v : pyobj) :
  forall (p pre : list string) (piece : option string) (current current' : dict),
  p <> [] ->
  fill_in_from (pre ++ p) v (length pre) (removelast p) piece current = Return current' ->
  lookup p (VDict current) = None /\
  (forall P Q x, p = (P ++ Q)%list -> P <> [] -> Q <> [] ->
                 lookup P (VDict current) = Some x -> is_dict x = true).
Proof.
  induction p as [|a p IH]; intros pre piece current current' Hne H; [contradiction|].
  destruct p as [|b p].
  - cbn [removelast fill_in_from] in H. rewrite rev_app_distr in H. cbn [rev app] in H.
    cbn [lookup]. destruct (dict_get a current) as [y|] eqn:E.
    + destruct y; try discriminate;
        destruct piece as [q|]; try discriminate;
        destruct (dict_get q current); discriminate.
    + split; [reflexivity|].
      intros [|k [|k' P]] [|q Q] x EP HP HQ; try contradiction; discriminate EP.
  - rewrite removelast_cons2 in H. cbn [fill_in_from] in H.
    specialize (IH (pre ++ [a])%list (Some a)).
    rewrite length_app in IH. cbn [length] in IH.
    rewrite Nat.add_1_r in IH. rewrite <- !app_assoc in IH. cbn [app] in IH.
    cbn [lookup]. destruct (dict_get a current) as [y|] eqn:E.
    + destruct y as [| | | | | | |child]; try discriminate.
      destruct (fill_in_from (pre ++ a :: b :: p) v (S (length pre))
                  (removelast (b :: p)) (Some a) child) as [sub|e] eqn:F;
        cbn [bind] in H; [|discriminate].
      destruct (IH child sub) as [Hl Hp]; [discriminate | exact F|].
      split; [exact Hl|].
      intros [|k P] Q x EP HP HQ HlP; [contradiction|].
      cbn [app] in EP. injection EP as <- EP.
      cbn [lookup] in HlP. rewrite E in HlP.
      destruct P as [|k' P].
      * cbn [lookup] in HlP. injection HlP as <-. reflexivity.
      * apply (Hp (k' :: P) Q x EP); [discriminate | exact HQ | exact HlP].
    + split; [reflexivity|].
      intros [|k P] Q x EP HP HQ HlP; [contradiction|].
      cbn [app] in EP. injection EP as <- EP.
      cbn [lookup] in HlP. rewrite E in HlP. discriminate HlP.
Qed.

(** X5: [fill_in_value] succeeds exactly when the path is unbound in the
    tree and no proper prefix of it holds a leaf; otherwise it raises.  (An
    empty path is bound to the tree itself and always raises.) *)
Theorem X5_fill_in_value_succeeds_iff :
  forall (path : list string) (v : pyobj) (parsed : dict),
    (exists parsed', fill_in_value path v parsed = Return parsed') <->
    (lookup path (VDict parsed) = None /\
     forall P Q x, path = (P ++ Q)%list -> P <> [] -> Q <> [] ->
                   lookup P (VDict parsed) = Some x -> is_dict x = true).
Proof.
  intros path v parsed. split.
  - intros [parsed' H]. unfold fill_in_value in H.
    apply (fill_in_from_success_inv v path [] None parsed parsed'); [|exact H].
    intros ->. discriminate H.
  - intros [Hl Hp]. unfold fill_in_value.
    exact (fill_in_from_succeeds v path [] None parsed Hl Hp).
Qed.

Lemma X5_fill_in_value_succeeds_iff_witness :
  (exists parsed',
     fill_in_value ["a"; "c"] (VInt 2) [("a", VDict [("b", VInt 1)])] = Return parsed') /\
  ~ (lookup ["a"; "b"; "c"] (VDict [("a", VDict [("b", VInt 1)])]) = None /\
     forall P Q x, ["a"; "b"; "c"] = (P ++ Q)%list -> P <> [] -> Q <> [] ->
                   lookup P (VDict [("a", VDict [("b", VInt 1)])]) = Some x ->
                   is_dict x = true).
Proof.
  split.
  - apply (X5_fill_in_value_succeeds_iff ["a"; "c"] (VInt 2)). split; [reflexivity|].
    intros [|k [|k' P]] [|q Q] x E HP HQ H; try contradiction; try discriminate E.
    + injection E as <- _. cbn in H. injection H as <-. reflexivity.
    + destruct P; discriminate E.
  - intros H.
    apply (X5_fill_in_value_succeeds_iff ["a"; "b"; "c"] (VInt 2)) in H.
    destruct H as [parsed' H]. discriminate H.
Defined.

Lemma keys_dict_set (k : string) (v : pyobj) (d : dict) :
  keys (dict_set k v d) =
  match dict_get k d with
  | Some _ => keys d
  | None => (keys d ++ [k])%list
  end.
Proof.
  unfold keys. induction d as [|[k' v'] d IH]; cbn [dict_set dict_get map app]; [reflexivity|].
  destruct (String.eqb k k') eqn:E; cbn [map fst]; [reflexivity|].
  rewrite IH. now destruct (dict_get k d).
Qed.

(** X6: insertion order of the top-level keys.  A successful
    [fill_in_value] leaves the keys of the dictionary in place when the first
    segment of the path is already a key, and otherwise adds that segment
    after all of them. *)
Theorem X6_fill_in_value_key_order :
  forall (k : string) (rest : list string) (v : pyobj) (parsed parsed' : dict),
    fill_in_value (k :: rest) v parsed = Return parsed' ->
    keys parsed' =
    match dict_get k parsed with
    | Some _ => keys parsed
    | None => (keys parsed ++ [k])%list
    end.
Proof.
  intros k rest v parsed parsed' H. unfold fill_in_value in H.
  assert (E : exists y, parsed' = dict_set k y parsed).
  { destruct rest as [|b rest].
    - cbn [removelast fill_in_from rev app] in H.
      destruct (dict_get k parsed) as [y|].
      + destruct y; discriminate H.
      + injection H as <-. eauto.
    - rewrite removelast_cons2 in H. cbn [fill_in_from] in H.
      destruct (dict_get k parsed) as [y|].
      + destruct y as [| | | | | | |child]; try discriminate H.
        destruct (fill_in_from _ _ _ _ _ child) as [sub|e]; cbn [bind] in H;
          [|discriminate H].
        injection H as <-. eauto.
      + destruct (fill_in_from _ _ _ _ _ []) as [sub|e]; cbn [bind] in H;
          [|discriminate H].
        injection H as <-. eauto. }
  destruct E as [y ->]. apply keys_dict_set.
Qed.

Lemma X6_fill_in_value_key_order_witness :
  keys [("b", VInt 1); ("a", VDict [("x", VInt 2)]); ("c", VInt 3)] = ["b"; "a"; "c"] /\
  keys [("b", VInt 1); ("a", VDict [("x", VInt 2); ("y", VInt 3)])] = ["b"; "a"].
Proof.
  split.
  - apply (X6_fill_in_value_key_order "c" [] (VInt 3)
             [("b", VInt 1); ("a", VDict [("x", VInt 2)])]). reflexivity.
  - apply (X6_fill_in_value_key_order "a" ["y"] (VInt 3)
             [("b", VInt 1); ("a", VDict [("x", VInt 2)])]). reflexivity.
Defined.

End TreeBuilderFacts.

(* ================================================================= *)
(** ** Further properties: finalization *)

Section FinalizerProperties.

Import PyStr.

Lemma index_key_cons (c : ascii) (s : string) :
  index_key (String c s) = Ascii.eqb c "$".
Proof.
  unfold index_key, startswith. cbn [prefix].
  destruct (ascii_dec "$" c) as [<-|Hne].
  - now rewrite startswith_nil.
  - symmetry. apply Ascii.eqb_neq. congruence.
Qed.

Lemma any_first_char_found (p : ascii -> bool) (ks : list string) :
  Forall (fun k => k <> "") ks ->
  Exists (fun k => exists c s, k = String c s /\ p c = true) ks ->
  any_first_char p ks = Return true.
Proof.
  induction 1 as [|k ks Hk Hks IH]; intros He; [inversion He|].
  destruct k as [|c s]; [contradiction|]. cbn [any_first_char first_char bind].
  destruct (p c) eqn:Hc; [reflexivity|].
  apply IH. inversion He as [? ? [c' [s' [E Hp]]]|]; subst; [|assumption].
  injection E as <- <-. congruence.
Qed.

Lemma any_first_char_none (p : ascii -> bool) (ks : list string) :
  Forall (fun k => exists c s, k = String c s /\ p c = false) ks ->
  any_first_char p ks = Return false.
Proof.
  induction 1 as [|k ks [c [s [-> Hc]]] Hks IH]; [reflexivity|].
  cbn [any_first_char first_char bind]. now rewrite Hc.
Qed.

(** X7: a container that has both a key beginning with a dollar sign and a
    key that does not (no key being empty) is refused with the "both as a
    list and a dict" error, whichever kind comes first and before any child
    is looked at. *)
Theorem X7_finalize_mixed_keys :
  forall (d : dict) (prefix : string),
    Forall (fun k => k <> "") (keys d) ->
    Exists (fun k => index_key k = true) (keys d) ->
    Exists (fun k => index_key k = false) (keys d) ->
    finalize_dict d prefix = Raise (STCParseError (MixedListDictKeys prefix) None).
Proof.
  intros d prefix Hne Hi Hn. rewrite finalize_dict_unfold.
  destruct d as [|[k0 x0] d0]; [inversion Hi|].
  assert (Hk0 : k0 <> "") by (inversion Hne; assumption).
  destruct k0 as [|c0 s0]; [contradiction|]. cbn [first_char bind].
  destruct (Ascii.eqb c0 "$") eqn:E.
  - rewrite (any_first_char_found _ _ Hne); [reflexivity|].
    apply Exists_exists in Hn. destruct Hn as [k [Hin Hk]].
    apply Exists_exists. exists k. split; [exact Hin|].
    rewrite Forall_forall in Hne. specialize (Hne k Hin).
    destruct k as [|c s]; [contradiction|]. exists c, s. split; [reflexivity|].
    rewrite index_key_cons in Hk. now rewrite Hk.
  - rewrite (any_first_char_found _ _ Hne); [reflexivity|].
    apply Exists_exists in Hi. destruct Hi as [k [Hin Hk]].
    apply Exists_exists. exists k. split; [exact Hin|].
    rewrite Forall_forall in Hne. specialize (Hne k Hin).
    destruct k as [|c s]; [contradiction|]. exists c, s. split; [reflexivity|].
    now rewrite index_key_cons in Hk.
Qed.


Lemma pyobj_nested_ind (P : pyobj -> Prop) :
  (forall v, is_dict v = false -> P v) ->
  (forall d, Forall (fun kx => P (snd kx)) d -> P (VDict d)) ->
  forall v, P v.
Proof.
  intros Hleaf Hdict. fix IH 1. intros [| | | | | | |d]; try (apply Hleaf; reflexivity).
  apply Hdict. induction d as [|[k x] d IHd]; constructor; [apply IH | exact IHd].
Qed.

Lemma names_only_keys (d : dict) :
  names_only (VDict d) = true ->
  Forall (fun k => exists c s, k = String c s /\ Ascii.eqb c "$" = false) (keys d).
Proof.
  induction d as [|[k x] d IH]; cbn [names_only forallb keys map fst]; [constructor|].
  rewrite !andb_true_iff, !negb_true_iff. intros [[[Hk Hi] _] Hd].
  constructor; [|apply IH, Hd].
  destruct k as [|c s]; [discriminate Hk|]. exists c, s. split; [reflexivity|].
  now rewrite index_key_cons in Hi.
Qed.

Lemma finalize_names_only (v : pyobj) :
  names_only v = true ->
  forall (d : dict) (prefix : string),
    v = VDict d -> finalize_dict d prefix = Return (finalized v).
Proof.
  induction v as [v Hv | d0 IH] using pyobj_nested_ind; intros Hn d prefix E.
  - subst v. discriminate Hv.
  - injection E as <-. rewrite finalize_dict_unfold.
    destruct d0 as [|[k0 x0] d1] eqn:Ed; [reflexivity|]. rewrite <- Ed in *.
    pose proof (names_only_keys d0 Hn) as Hk.
    assert (H0 : exists c s, k0 = String c s /\ Ascii.eqb c "$" = false).
    { rewrite Ed in Hk. now inversion Hk. }
    destruct H0 as [c0 [s0 [-> Hc0]]]. cbn [first_char bind]. rewrite Hc0.
    rewrite (any_first_char_none _ _ Hk). cbn [bind].
    assert (Hitems : each_item prefix d0 =
                     Return (map (fun kx : string * pyobj =>
                                    let '(k, x) := kx in
                                    (k, match x with
                                        | VDict _ => finalized x
                                        | VEmpty e => EmptyObject_value e
                                        | _ => x
                                        end)) d0)).
    { clear Ed Hk. induction d0 as [|[k x] d2 IHd]; [reflexivity|].
      cbn [names_only forallb] in Hn. rewrite !andb_true_iff in Hn.
      destruct Hn as [[_ Hx] Hd2]. inversion IH as [|? ? IHx IHd2]; subst.
      cbn [each_item map]. rewrite (IHd IHd2 Hd2).
      destruct x; cbn [finalize_child bind]; try reflexivity.
      cbn [snd] in IHx. fold (finalize_dict d (child_prefix prefix k)).
      now rewrite (IHx Hx d (child_prefix prefix k) eq_refl). }
    rewrite Hitems. reflexivity.
Qed.

(** X9: a tree with name keys only, at every level, finalizes (the
    interpreter's recursion limit aside), and the result is the same tree,
    keys in the same order, with each empty marker replaced by the value of
    its enum member: the one list of [EmptyObject.EMPTY_LIST] or the one
    dictionary of [EmptyObject.EMPTY_DICT], with whatever it holds at the
    time. *)
Theorem X9_finalize_names_only :
  forall (d : dict) (prefix : string),
    names_only (VDict d) = true ->
    finalize_dict d prefix = Return (finalized (VDict d)).
Proof.
  intros d prefix H. now apply (finalize_names_only (VDict d) H).
Qed.


End FinalizerProperties.

(* ================================================================= *)
(** ** Further properties: the scanner *)

Section ScannerProperties.

Import PyStr.

Lemma lstrip_by_all (p : ascii -> bool) (s : string) :
  all_chars p s = true -> lstrip_by p s = "".
Proof.
  induction s as [|c s IH]; [reflexivity|]. cbn [all_chars lstrip_by].
  rewrite andb_true_iff. intros [-> Hs]. auto.
Qed.

Lemma rstrip_by_all (p : ascii -> bool) (s : string) :
  all_chars p s = true -> rstrip_by p s = "".
Proof.
  induction s as [|c s IH]; [reflexivity|]. cbn [all_chars rstrip_by].
  rewrite andb_true_iff. intros [-> Hs]. now rewrite (IH Hs).
Qed.

Lemma strip_all_space (s : string) : all_chars isspace s = true -> strip s = "".
Proof. intros H. unfold strip, lstrip. now rewrite (lstrip_by_all _ _ H). Qed.

Lemma split_all_chars (p : ascii -> bool) (c : ascii) (s : string) :
  all_chars p s = true -> Forall (fun l => all_chars p l = true) (split c s).
Proof.
  induction s as [|x s IH]; cbn [all_chars split].
  - intros _. now repeat constructor.
  - rewrite andb_true_iff. intros [Hx Hs]. specialize (IH Hs).
    destruct (Ascii.eqb x c).
    + constructor; [reflexivity | exact IH].
    + destruct (split c s) as [|h t]; [now repeat constructor; cbn; rewrite Hx|].
      inversion IH; subst. constructor; [|assumption].
      cbn [all_chars]. now rewrite Hx.
Qed.

Lemma loads_loop_blank (lines : list string) :
  Forall (fun l => all_chars isspace l = true) lines ->
  forall (n : nat) (st : scan),
    in_a_string st = false -> loads_loop n lines st = Return st.
Proof.
  induction 1 as [|l lines Hl Hls IH]; intros n st Hst; [reflexivity|].
  cbn [loads_loop]. unfold loads_line. rewrite Hst. cbn [negb].
  rewrite (strip_all_space l Hl). cbn [String.eqb bind]. now apply IH.
Qed.

(** X10: a document made of white space only (blank lines, blanks, tabs, or
    nothing at all) decodes to the empty dictionary. *)
Theorem X10_blank_document :
  forall (rust_loads : option (string -> result pyobj)) (stc_str : string),
    all_chars isspace stc_str = true ->
    loads rust_loads stc_str "python" = Return (VDict []).
Proof.
  intros rust_loads s H.
  change (loads rust_loads s "python") with (loads_python s).
  unfold loads_python. rewrite (strip_all_space s H). cbn [String.eqb].
  now rewrite (loads_loop_blank _ (split_all_chars isspace newline s H) 0 initial_scan).
Qed.


(** The decode stops with the exception raised at the first line the
    scanner refuses. *)
Lemma loads_raises_at (pre post : list string) (line : string) (st : scan) (e : exn) :
  Forall (lacks newline) (pre ++ line :: post) ->
  strip (document (pre ++ line :: post)) <> "{}" ->
  loads_loop 0 pre initial_scan = Return st ->
  loads_line (length pre) line st = Raise e ->
  loads_python (document (pre ++ line :: post)) = Raise e.
Proof.
  intros Hl Hne Hpre Hline. unfold loads_python.
  apply String.eqb_neq in Hne. rewrite Hne.
  rewrite split_document; [|destruct pre; discriminate | exact Hl].
  rewrite loads_loop_app, Hpre. cbn [bind loads_loop Nat.add]. now rewrite Hline.
Qed.

(** X12: a line without a colon that is not blank, met between assignments,
    stops the decode with the missing-colon error; the error carries the line
    and its 1-based number.  (The one document exempt is the literal [{}],
    which is the empty document.) *)
Theorem X12_missing_colon :
  forall (rust_loads : option (string -> result pyobj))
         (pre post : list string) (line : string),
    Forall (lacks newline) (pre ++ line :: post) ->
    strip (document (pre ++ line :: post)) <> "{}" ->
    accepted pre ->
    strip line <> "" -> lacks ":" line ->
    loads rust_loads (document (pre ++ line :: post)) "python" =
    Raise (STCParseError (MissingColon line) (Some (length pre + 1))).
Proof.
  intros rust_loads pre post line Hl Hne [st [Hpre Hst]] Hb Hc.
  change (loads rust_loads ?d "python") with (loads_python d).
  apply (loads_raises_at pre post line st); try assumption.
  unfold loads_line. rewrite Hst. cbn [negb].
  apply String.eqb_neq in Hb. rewrite Hb. unfold lacks in Hc. now rewrite Hc.
Qed.


(** X15: an assignment line whose key has a piece that is not an
    identifier (an empty piece as in [a..b], a piece with a dollar sign as in
    [a.$0], [a.$] or [a.$1b], ...), met between assignments, stops the
    decode with the invalid-key error for the trimmed key and the 1-based
    number of the line. *)
Theorem X15_invalid_key_line :
  forall (rust_loads : option (string -> result pyobj))
         (pre post : list string) (k v : string),
    Forall (lacks newline) (pre ++ (k ++ ":" ++ v) :: post) ->
    accepted pre ->
    lacks ":" k ->
    forallb isidentifier (split "." (strip k)) = false ->
    loads rust_loads (document (pre ++ (k ++ ":" ++ v) :: post)) "python" =
    Raise (STCParseError (InvalidKeySegment_identifier (strip k))
             (Some (length pre + 1))).
Proof.
  intros rust_loads pre post k v Hl [st [Hpre Hst]] Hk Hid.
  change (loads rust_loads ?d "python") with (loads_python d).
  apply (loads_raises_at pre post _ st); try assumption.
  - apply (strip_with_colon (document (pre ++ (k ++ ":" ++ v) :: post))).
    apply (document_has_colon _ k v). apply in_or_app. right. now left.
  - change (k ++ ":" ++ v) with (k ++ String ":" v).
    rewrite (loads_line_assign _ k v st Hst Hk). unfold assign.
    unfold parse_key. rewrite parse_key_loop_closed, Hid. reflexivity.
Qed.




Lemma loads_line_close_padded (f n : nat) (acc ws : string) (path : list string)
    (parsed : dict) :
  acc <> "" -> all_chars isspace ws = true ->
  loads_line n (backticks f ++ ws) (in_block f acc path parsed) =
  (parsed' <- fill_in_value path (VStr (drop_last acc)) parsed ;;
   Return (between parsed')).
Proof.
  intros H Hws. unfold loads_line, in_block.
  cbn [in_a_string negb bt_count fence_of bind string_value string_key_path].
  rewrite Nat2Z.id, rstrip_backticks_append. unfold rstrip at 1.
  rewrite (rstrip_by_all _ _ Hws), append_nil_r, String.eqb_refl.
  destruct acc as [|c acc]; [contradiction|]. reflexivity.
Qed.



End ScannerProperties.

(* ================================================================= *)
(** ** Further properties: what the Python implementation builds *)

Section PythonImplementation.

Import PyStr.

Lemma identifier_name_key (k : string) : isidentifier k = true -> name_key k = true.
Proof.
  intros H. destruct (identifier_first k H) as [c [s [-> Hc]]].
  unfold name_key. rewrite index_key_cons, Hc. reflexivity.
Qed.

Lemma scanned_get (k : string) (d : dict) (x : pyobj) :
  scanned (VDict d) = true -> dict_get k d = Some x -> scanned x = true.
Proof.
  induction d as [|[k' x'] d IH]; cbn [scanned forallb dict_get]; [discriminate|].
  rewrite !andb_true_iff. intros [[_ Hx] Hd].
  destruct (String.eqb k k'); [intros E; now injection E as <- | now apply IH].
Qed.

Lemma scanned_set (k : string) (y : pyobj) (d : dict) :
  scanned (VDict d) = true -> name_key k = true -> scanned y = true ->
  scanned (VDict (dict_set k y d)) = true.
Proof.
  intros Hd Hk Hy. induction d as [|[k' x'] d IH]; cbn [dict_set scanned forallb].
  - now rewrite Hk, Hy.
  - cbn [scanned forallb] in Hd. rewrite !andb_true_iff in Hd.
    destruct Hd as [[Hk' Hx'] Hd].
    destruct (String.eqb k k'); cbn [scanned forallb].
    + rewrite Hk', Hy. exact Hd.
    + rewrite Hk', Hx'. now apply IH.
Qed.

Lemma fill_in_from_scanned (full : list string) (v : pyobj) :
  Forall (fun k => isidentifier k = true) full -> scanned v = true ->
  forall (rest : list string) (i : nat) (piece : option string)
         (current current' : dict),
  Forall (fun k => isidentifier k = true) rest ->
  scanned (VDict current) = true ->
  fill_in_from full v i rest piece current = Return current' ->
  scanned (VDict current') = true.
Proof.
  intros Hfull Hv.
  induction rest as [|p rest IH]; intros i piece current current' Hrest Hc H.
  - cbn [fill_in_from] in H. destruct (rev full) as [|last_piece l] eqn:E; [discriminate|].
    assert (Hlast : isidentifier last_piece = true).
    { rewrite Forall_forall in Hfull. apply Hfull. apply in_rev.
      rewrite E. now left. }
    destruct (dict_get last_piece current) as [y|].
    + destruct y; try discriminate;
        destruct piece as [q|]; try discriminate;
        destruct (dict_get q current); discriminate.
    + injection H as <-. apply scanned_set; auto using identifier_name_key.
  - inversion Hrest as [|? ? Hp Hrest']; subst. cbn [fill_in_from] in H.
    destruct (dict_get p current) as [y|] eqn:E.
    + destruct y as [| | | | | | |child]; try discriminate.
      destruct (fill_in_from full v (S i) rest (Some p) child) as [sub|e] eqn:F;
        cbn [bind] in H; [|discriminate].
      injection H as <-. apply scanned_set; auto using identifier_name_key.
      apply (IH _ _ _ _ Hrest' (scanned_get _ _ _ Hc E) F).
    + destruct (fill_in_from full v (S i) rest (Some p) []) as [sub|e] eqn:F;
        cbn [bind] in H; [|discriminate].
      injection H as <-. apply scanned_set; auto using identifier_name_key.
      apply (IH (S i) (Some p) [] sub Hrest' eq_refl F).
Qed.

Lemma Forall_removelast (A : Type) (P : A -> Prop) (l : list A) :
  Forall P l -> Forall P (removelast l).
Proof.
  induction 1 as [|x l Hx Hl IH]; [constructor|].
  destruct l; [constructor|]. cbn [removelast] in *. now constructor.
Qed.

Lemma fill_in_value_scanned (path : list string) (v : pyobj) (parsed parsed' : dict) :
  Forall (fun k => isidentifier k = true) path -> scanned v = true ->
  scanned (VDict parsed) = true ->
  fill_in_value path v parsed = Return parsed' ->
  scanned (VDict parsed') = true.
Proof.
  intros Hp Hv Hs H. unfold fill_in_value in H.
  exact (fill_in_from_scanned path v Hp Hv _ _ _ _ _ (Forall_removelast _ _ _ Hp) Hs H).
Qed.

Lemma parse_value_scanned (v : string) (ln : option nat) (x : pyobj) :
  parse_value v ln = Return (x, false) -> scanned x = true.
Proof.
  unfold parse_value.
  repeat match goal with
         | |- context [if ?b then _ else _] => destruct b
         | |- context [match ?o with Some _ => _ | None => _ end] => destruct o
         end;
    intros H; try discriminate H; injection H as <-; reflexivity.
Qed.

Lemma loads_line_invariant (n : nat) (line : string) (st st' : scan) :
  scan_invariant st -> loads_line n line st = Return st' -> scan_invariant st'.
Proof.
  intros [Hs Hp] H. unfold loads_line in H.
  destruct (in_a_string st); cbn [negb] in H.
  - destruct (fence_of (bt_count st)) as [fence|e]; cbn [bind] in H; [|discriminate].
    destruct (String.eqb (rstrip line) fence).
    + destruct (String.length (string_value st) =? 0)%nat; [discriminate|].
      destruct (string_key_path st) as [path|] eqn:E; cbn [bind] in H; [|discriminate].
      destruct (fill_in_value path _ (parsed st)) as [parsed'|e] eqn:F;
        cbn [bind] in H; [|discriminate].
      injection H as <-. split; cbn [parsed string_key_path]; [|discriminate].
      exact (fill_in_value_scanned path (VStr _) _ _ (Hp path eq_refl) eq_refl Hs F).
    + injection H as <-. split; assumption.
  - destruct (String.eqb (strip line) ""); [injection H as <-; now split|].
    destruct (negb (contains ":" line)); [discriminate|].
    destruct (split1 ":" line) as [|k [|v [|w l]]]; try discriminate.
    unfold assign in H.
    destruct (parse_key (strip k) _) as [path|e] eqn:K; cbn [bind] in H; [|discriminate].
    apply parse_key_returns in K. destruct K as [[_ Hpath] _].
    destruct (parse_value (strip v) _) as [[pv is_string]|e] eqn:V; cbn [bind] in H;
      [|discriminate].
    destruct is_string.
    + injection H as <-. split; cbn [parsed string_key_path]; [exact Hs|].
      intros p E. now injection E as <-.
    + destruct (fill_in_value path pv (parsed st)) as [parsed'|e] eqn:F;
        cbn [bind] in H; [|discriminate].
      injection H as <-. split; cbn [parsed set_parsed string_key_path]; [|exact Hp].
      exact (fill_in_value_scanned _ _ _ _ Hpath (parse_value_scanned _ _ _ V) Hs F).
Qed.

Lemma loads_loop_invariant (lines : list string) :
  forall (n : nat) (st st' : scan),
    scan_invariant st -> loads_loop n lines st = Return st' -> scan_invariant st'.
Proof.
  induction lines as [|l lines IH]; intros n st st' Hi H; cbn [loads_loop] in H.
  - now injection H as <-.
  - destruct (loads_line n l st) as [st1|e] eqn:E; cbn [bind] in H; [|discriminate].
    exact (IH _ _ _ (loads_line_invariant _ _ _ _ Hi E) H).
Qed.

Lemma initial_scan_invariant : scan_invariant initial_scan.
Proof. split; [reflexivity | discriminate]. Qed.

Lemma scanned_names_only (v : pyobj) : scanned v = true -> names_only v = true.
Proof.
  induction v as [v Hv | d IH] using pyobj_nested_ind.
  - destruct v; try reflexivity. discriminate Hv.
  - induction d as [|[k x] d IHd]; [reflexivity|].
    cbn [scanned names_only forallb]. inversion IH as [|? ? IHx IHd']; subst.
    rewrite !andb_true_iff. intros [[Hk Hx] Hd]. unfold name_key in Hk.
    apply andb_true_iff in Hk. destruct Hk as [Hk1 Hk2].
    cbn [snd] in IHx. repeat split; auto.
Qed.



Lemma fill_in_from_error (full : list string) (v : pyobj) :
  forall (rest : list string) (i : nat) (piece : option string) (current : dict) (e : exn),
  fill_in_from full v i rest piece current = Raise e -> list_error e = false.
Proof.
  induction rest as [|p rest IH]; intros i piece current e H; cbn [fill_in_from] in H.
  - destruct (rev full) as [|last_piece l]; [now injection H as <-|].
    destruct (dict_get last_piece current) as [y|]; [|discriminate].
    destruct y; try (injection H as <-; reflexivity);
      destruct piece as [q|]; try (injection H as <-; reflexivity);
      destruct (dict_get q current); injection H as <-; reflexivity.
  - destruct (dict_get p current) as [y|].
    + destruct y as [| | | | | | |child]; try (injection H as <-; reflexivity).
      destruct (fill_in_from full v (S i) rest (Some p) child) as [sub|e'] eqn:F;
        cbn [bind] in H; [discriminate|].
      injection H as <-. exact (IH _ _ _ _ F).
    + destruct (fill_in_from full v (S i) rest (Some p) []) as [sub|e'] eqn:F;
        cbn [bind] in H; [discriminate|].
      injection H as <-. exact (IH _ _ _ _ F).
Qed.

Lemma loads_line_error (n : nat) (line : string) (st : scan) (e : exn) :
  loads_line n line st = Raise e -> list_error e = false.
Proof.
  intros H. unfold loads_line in H.
  destruct (in_a_string st); cbn [negb] in H.
  - destruct (fence_of (bt_count st)) as [fence|e'] eqn:Ef; cbn [bind] in H.
    + destruct (String.eqb (rstrip line) fence); [|discriminate].
      destruct (String.length (string_value st) =? 0)%nat;
        [injection H as <-; reflexivity|].
      destruct (string_key_path st) as [path|]; cbn [bind] in H;
        [|injection H as <-; reflexivity].
      destruct (fill_in_value path _ (parsed st)) as [parsed'|e'] eqn:F;
        cbn [bind] in H; [discriminate|].
      injection H as <-. exact (fill_in_from_error _ _ _ _ _ _ _ F).
    + injection H as <-. destruct (bt_count st); try discriminate Ef;
        injection Ef as <-; reflexivity.
  - destruct (String.eqb (strip line) ""); [discriminate|].
    destruct (negb (contains ":" line)); [injection H as <-; reflexivity|].
    destruct (split1 ":" line) as [|k [|v [|w l]]];
      try (injection H as <-; reflexivity).
    unfold assign in H.
    destruct (parse_key (strip k) _) as [path|e'] eqn:K; cbn [bind] in H.
    + destruct (parse_value (strip v) _) as [[pv is_string]|e'] eqn:V; cbn [bind] in H.
      * destruct is_string; [discriminate|].
        destruct (fill_in_value path pv (parsed st)) as [parsed'|e'] eqn:F;
          cbn [bind] in H; [discriminate|].
        injection H as <-. exact (fill_in_from_error _ _ _ _ _ _ _ F).
      * injection H as <-. unfold parse_value in V.
        repeat match type of V with
               | (if ?b then _ else _) = _ => destruct b
               | match ?o with Some _ => _ | None => _ end = _ => destruct o
               end; try discriminate V; injection V as <-; reflexivity.
    + injection H as <-. unfold parse_key in K. rewrite parse_key_loop_closed in K.
      destruct (forallb isidentifier _); [discriminate K|].
      injection K as <-. reflexivity.
Qed.

Lemma loads_loop_error (lines : list string) :
  forall (n : nat) (st : scan) (e : exn),
    loads_loop n lines st = Raise e -> list_error e = false.
Proof.
  induction lines as [|l lines IH]; intros n st e H; cbn [loads_loop] in H;
    [discriminate|].
  destruct (loads_line n l st) as [st1|e'] eqn:E; cbn [bind] in H.
  - exact (IH _ _ _ H).
  - injection H as <-. exact (loads_line_error _ _ _ _ E).
Qed.

(** The Python implementation, outcome by outcome: the empty-document
    literal, an error other than the two list errors, or the scanned tree
    with its markers replaced. *)
Lemma loads_python_outcome (s : string) :
  (exists e, loads_python s = Raise e /\ list_error e = false) \/
  (exists parsed, scanned (VDict parsed) = true /\
                  loads_python s = Return (finalized (VDict parsed))).
Proof.
  unfold loads_python. destruct (String.eqb (strip s) "{}").
  - right. now exists [].
  - destruct (loads_loop 0 (split newline s) initial_scan) as [st|e] eqn:E; cbn [bind].
    + destruct (in_a_string st); [left; eexists; split; reflexivity|].
      right. exists (parsed st).
      destruct (loads_loop_invariant _ _ _ _ initial_scan_invariant E) as [Hs _].
      split; [exact Hs|].
      exact (finalize_names_only (VDict (parsed st)) (scanned_names_only _ Hs)
               (parsed st) "" eq_refl).
    + left. exists e. split; [reflexivity | exact (loads_loop_error _ _ _ _ E)].
Qed.


(** X17: the Python implementation never fails with one of the two errors
    of [finalize_dict] ("both as a list and a dict", "not all indices are
    present"): every failure of a decode comes from the scan of the lines. *)
Theorem X17_python_no_list_errors :
  forall (rust_loads : option (string -> result pyobj)) (stc_str : string) (e : exn),
    loads rust_loads stc_str "python" = Raise e -> list_error e = false.
Proof.
  intros rust_loads s e H.
  change (loads rust_loads s "python") with (loads_python s) in H.
  destruct (loads_python_outcome s) as [[e' [E He]] | [parsed [Hs E]]];
    rewrite E in H; [|discriminate H].
  now injection H as <-.
Qed.


Lemma dict_set_absent (k : string) (v : pyobj) (d : dict) :
  dict_get k d = None -> dict_set k v d = (d ++ [(k, v)])%list.
Proof.
  induction d as [|[k' v'] d IH]; cbn [dict_get dict_set app]; [reflexivity|].
  destruct (String.eqb k k'); [discriminate|]. intros H. now rewrite (IH H).
Qed.

Lemma dict_get_snoc (k k' : string) (v : pyobj) (d : dict) :
  k <> k' -> dict_get k d = None -> dict_get k (d ++ [(k', v)])%list = None.
Proof.
  intros Hne. apply String.eqb_neq in Hne.
  induction d as [|[k0 v0] d IH]; cbn [dict_get app]; [now rewrite Hne|].
  destruct (String.eqb k k0); [discriminate | exact IH].
Qed.

Lemma loads_loop_flat (items : list (string * string * pyobj)) :
  forall (n : nat) (st : scan),
    in_a_string st = false ->
    NoDup (flat_keys items) ->
    (forall k, In k (flat_keys items) -> dict_get k (parsed st) = None) ->
    Forall flat_item_ok items ->
    loads_loop n (flat_lines items) st =
    Return (set_parsed st (parsed st ++ flat_entries items)%list).
Proof.
  induction items as [|[[k v] x] items IH]; intros n st Hst Hnd Hfree Hok.
  - cbn. rewrite app_nil_r. now destruct st.
  - inversion Hok as [|? ? Hi Hok']; subst. destruct Hi as [Hk Hv].
    inversion Hnd as [|? ? Hnotin Hnd']; subst.
    cbn [flat_lines map loads_loop].
    rewrite (loads_line_scalar n [k] v x st); try assumption;
      [|split; [discriminate | now repeat constructor]].
    assert (Hget : dict_get k (parsed st) = None) by (apply Hfree; now left).
    unfold fill_in_value. cbn [removelast fill_in_from rev app]. rewrite Hget.
    cbn [bind]. rewrite (dict_set_absent _ _ _ Hget).
    fold (flat_lines items). rewrite IH; try assumption.
    + cbn [parsed set_parsed flat_entries map]. rewrite <- app_assoc. reflexivity.
    + cbn [parsed set_parsed]. intros k' Hin. apply dict_get_snoc.
      * intros ->. contradiction.
      * apply Hfree. now right.
Qed.

Lemma flat_entries_finalized (items : list (string * string * pyobj)) :
  Forall flat_item_ok items ->
  names_only (VDict (flat_entries items)) = true /\
  finalized (VDict (flat_entries items)) =
  VDict (map (fun kx : string * pyobj => (fst kx, leaf_value (snd kx)))
             (flat_entries items)).
Proof.
  induction 1 as [|[[k v] x] items Hi Hok [IH1 IH2]]; [now split|].
  destruct Hi as [Hk [_ Hv]].
  pose proof (parse_value_not_dict _ None _ (Hv None)) as Hx.
  apply identifier_name_key in Hk. unfold name_key in Hk.
  change (flat_entries ((k, v, x) :: items)) with ((k, x) :: flat_entries items).
  split.
  - change (names_only (VDict ((k, x) :: flat_entries items)))
      with (negb (String.eqb k "") && negb (index_key k) && names_only x
            && names_only (VDict (flat_entries items))).
    rewrite Hk, IH1. now destruct x.
  - change (finalized (VDict ((k, x) :: flat_entries items)))
      with (VDict ((k, match x with
                       | VDict _ => finalized x
                       | VEmpty e => EmptyObject_value e
                       | _ => x
                       end)
                     :: match finalized (VDict (flat_entries items)) with
                        | VDict d => d
                        | _ => []
                        end)).
    rewrite IH2. cbn [map fst snd]. now destruct x.
Qed.

(** X11: a flat document, one scalar assignment per line with keys that are
    distinct identifiers, decodes to the dictionary of its keys in the order of
    the lines, each with the value of its token (the tokens [[]] and [{}]
    giving the values of [EmptyObject.EMPTY_LIST] and
    [EmptyObject.EMPTY_DICT], with whatever these hold at the time). *)
Theorem X11_flat_document :
  forall (rust_loads : option (string -> result pyobj))
         (items : list (string * string * pyobj)),
    NoDup (flat_keys items) ->
    Forall flat_item_ok items ->
    loads rust_loads (document (flat_lines items)) "python" =
    Return (VDict (map (fun kx : string * pyobj => (fst kx, leaf_value (snd kx)))
                       (flat_entries items))).
Proof.
  intros rust_loads items Hnd Hok.
  change (loads rust_loads ?d "python") with (loads_python d).
  destruct (flat_entries_finalized items Hok) as [Hn Hf]. rewrite <- Hf.
  destruct items as [|[[k v] x] items]; [reflexivity|].
  assert (Hk : isidentifier k = true /\ scalar_token v x) by now inversion Hok.
  rewrite (loads_python_document _ (key_text [k]) v).
  - rewrite (loads_loop_flat _ 0 initial_scan eq_refl Hnd (fun _ _ => eq_refl) Hok).
    cbn [bind in_a_string set_parsed initial_scan parsed app].
    exact (finalize_names_only _ Hn _ "" eq_refl).
  - clear Hn Hf Hnd Hk. induction Hok as [|[[k' v'] x'] l Hi _ IH];
      constructor; [|exact IH].
    destruct Hi as [Hk' [Hv' _]].
    apply assignment_lacks_newline; [|exact Hv'].
    split; [discriminate | now repeat constructor].
  - now left.
Qed.


End PythonImplementation.

(* ================================================================= *)
(** ** Further properties: the list branch of the finalizer *)

Section ListBranch.

Import PyStr.

Lemma fold_min_spec (l : list Z) :
  forall x, In (fold_left Z.min l x) (x :: l) /\
            forall y, In y (x :: l) -> (fold_left Z.min l x <= y)%Z.
Proof.
  induction l as [|a l IH]; intros x; cbn [fold_left].
  - split; [now left | intros y [<-|[]]; lia].
  - destruct (IH (Z.min x a)) as [Hin Hle]. split.
    + destruct Hin as [E|Hin]; [|right; now right].
      rewrite <- E. destruct (Z.min_spec x a) as [[_ ->]|[_ ->]];
        [now left | right; now left].
    + intros y [<-|[<-|Hy]].
      * specialize (Hle (Z.min x a) (or_introl eq_refl)). lia.
      * specialize (Hle (Z.min x a) (or_introl eq_refl)). lia.
      * apply Hle. now right.
Qed.

Lemma fold_max_spec (l : list Z) :
  forall x, In (fold_left Z.max l x) (x :: l) /\
            forall y, In y (x :: l) -> (y <= fold_left Z.max l x)%Z.
Proof.
  induction l as [|a l IH]; intros x; cbn [fold_left].
  - split; [now left | intros y [<-|[]]; lia].
  - destruct (IH (Z.max x a)) as [Hin Hle]. split.
    + destruct Hin as [E|Hin]; [|right; now right].
      rewrite <- E. destruct (Z.max_spec x a) as [[_ ->]|[_ ->]];
        [right; now left | now left].
    + intros y [<-|[<-|Hy]].
      * specialize (Hle (Z.max x a) (or_introl eq_refl)). lia.
      * specialize (Hle (Z.max x a) (or_introl eq_refl)). lia.
      * apply Hle. now right.
Qed.

Lemma length_set_nth (l : list pyobj) (n : nat) (x : pyobj) :
  length (set_nth l n x) = length l.
Proof.
  revert n. induction l as [|a l IH]; intros [|n]; cbn [set_nth length]; auto.
Qed.

Lemma nth_error_set_nth_same (l : list pyobj) (n : nat) (x : pyobj) :
  n < length l -> nth_error (set_nth l n x) n = Some x.
Proof.
  revert n. induction l as [|a l IH]; intros [|n] H; cbn [length] in H;
    cbn [set_nth nth_error]; try lia; [reflexivity | apply IH; lia].
Qed.

Lemma nth_error_set_nth_other (l : list pyobj) (n m : nat) (x : pyobj) :
  m <> n -> nth_error (set_nth l n x) m = nth_error l m.
Proof.
  revert n m. induction l as [|a l IH]; intros [|n] [|m] H;
    cbn [set_nth nth_error]; try reflexivity; [contradiction | apply IH; lia].
Qed.

Lemma index_range (n : nat) (idx : list Z) :
  Permutation idx (map Z.of_nat (seq 0 n)) ->
  (forall i, In i idx <-> (0 <= i < Z.of_nat n)%Z) /\ NoDup idx.
Proof.
  intros Hp. split.
  - intros i. split.
    + intros Hi. apply (Permutation_in _ Hp) in Hi. apply in_map_iff in Hi.
      destruct Hi as [j [<- Hj]]. apply in_seq in Hj. lia.
    + intros Hi. apply (Permutation_in _ (Permutation_sym Hp)). apply in_map_iff.
      exists (Z.to_nat i). split; [lia|]. apply in_seq. lia.
  - apply (Permutation_NoDup (Permutation_sym Hp)).
    apply Finite.Injective_map_NoDup; [|apply seq_NoDup].
    intros a b. lia.
Qed.

Lemma indices_of_length (ks : list string) :
  forall idx, indices_of ks = Return idx -> length idx = length ks.
Proof.
  induction ks as [|k ks IH]; intros idx H; cbn [indices_of] in H.
  - now injection H as <-.
  - destruct (int_of_str (tail k)) as [i|e]; cbn [bind] in H; [|discriminate].
    destruct (indices_of ks) as [rest|e]; cbn [bind] in H; [|discriminate].
    injection H as <-. cbn [length]. now rewrite (IH rest eq_refl).
Qed.

(** The fill loop on leaves whose indices are distinct and in range. *)
Lemma fill_list_leaves (prefix : string) (items : list (string * pyobj)) :
  forall (idx : list Z) (acc : list pyobj),
    indices_of (keys items) = Return idx ->
    (forall i, In i idx -> (0 <= i < Z.of_nat (length acc))%Z) ->
    NoDup idx ->
    Forall (fun kx => is_dict (snd kx) = false) items ->
    exists l,
      fill_list prefix items acc = Return l /\
      length l = length acc /\
      (forall k x i, In (k, x) items -> PyNum.int (tail k) = Some i ->
                     nth_error l (Z.to_nat i) = Some (leaf_value x)) /\
      (forall m, ~ In (Z.of_nat m) idx -> nth_error l m = nth_error acc m).
Proof.
  induction items as [|[k x] items IH]; intros idx acc Hidx Hrange Hnd Hleaf.
  - exists acc. cbn [fill_list]. split; [reflexivity|]. split; [reflexivity|].
    split; [intros k x i []|reflexivity].
  - cbn [keys map fst indices_of] in Hidx. unfold int_of_str in Hidx at 1.
    destruct (PyNum.int (tail k)) as [i|] eqn:Ei; cbn [bind] in Hidx; [|discriminate].
    fold (keys items) in Hidx.
    destruct (indices_of (keys items)) as [rest|e] eqn:Er; cbn [bind] in Hidx;
      [|discriminate].
    injection Hidx as <-.
    inversion Hnd as [|? ? Hnotin Hnd']; subst.
    inversion Hleaf as [|? ? Hx Hleaf']; subst. cbn [snd] in Hx.
    assert (Hi : (0 <= i < Z.of_nat (length acc))%Z) by (apply Hrange; now left).
    destruct (IH rest (set_nth acc (Z.to_nat i) (leaf_value x)) eq_refl)
      as [l [Hfill [Hlen [Hval Hkeep]]]]; try assumption.
    { intros j Hj. rewrite length_set_nth. apply Hrange. now right. }
    exists l. cbn [fill_list]. unfold int_of_str. rewrite Ei. cbn [bind].
    assert (Hchild : finalize_child prefix k x = Return (leaf_value x))
      by (destruct x; try reflexivity; discriminate Hx).
    rewrite Hchild. cbn [bind]. unfold list_setitem.
    replace (i <? 0)%Z with false by (symmetry; apply Z.ltb_ge; lia).
    replace ((0 <=? i)%Z && (i <? Z.of_nat (length acc))%Z) with true
      by (symmetry; apply andb_true_iff; split; [apply Z.leb_le | apply Z.ltb_lt]; lia).
    cbn [bind]. rewrite length_set_nth in Hlen.
    repeat split; try assumption.
    + intros k' x' i' [E|Hin] Hk'.
      * injection E as <- <-. rewrite Ei in Hk'. injection Hk' as <-.
        rewrite Hkeep by (rewrite Z2Nat.id by lia; exact Hnotin).
        apply nth_error_set_nth_same. lia.
      * now apply (Hval k' x' i').
    + intros m Hm. rewrite Hkeep by (intros H; apply Hm; now right).
      apply nth_error_set_nth_other. intros ->. apply Hm. left. lia.
Qed.

(** X8: the list branch on a well-formed container.  When every key begins
    with a dollar sign, the indices after it are a permutation of
    [0 .. n-1] and the children are leaves, [finalize_dict] returns a list
    of [n] elements in which each child stands at its own index, whatever the
    order of the keys in the dictionary (empty markers being replaced by the
    values of their enum members). *)
Theorem X8_finalize_list :
  forall (d : dict) (prefix : string) (idx : list Z),
    d <> [] ->
    Forall (fun k => index_key k = true) (keys d) ->
    indices_of (keys d) = Return idx ->
    Permutation idx (map Z.of_nat (seq 0 (length d))) ->
    Forall (fun kx => is_dict (snd kx) = false) d ->
    exists l,
      finalize_dict d prefix = Return (VList l) /\
      length l = length d /\
      forall k x i, In (k, x) d -> PyNum.int (tail k) = Some i ->
                    nth_error l (Z.to_nat i) = Some (leaf_value x).
Proof.
  intros d prefix idx Hne Hkeys Hidx Hperm Hleaf.
  destruct (index_range _ _ Hperm) as [Hrange Hnd].
  pose proof (indices_of_length _ _ Hidx) as Hlen.
  unfold keys in Hlen. rewrite length_map in Hlen.
  assert (Hdollar : Forall (fun k => exists c s, k = String c s /\
                                      negb (Ascii.eqb c "$") = false) (keys d)).
  { apply Forall_forall. intros k Hk. rewrite Forall_forall in Hkeys.
    specialize (Hkeys k Hk). destruct k as [|c s]; [discriminate Hkeys|].
    rewrite index_key_cons in Hkeys. exists c, s. now rewrite Hkeys. }
  rewrite finalize_dict_unfold.
  destruct d as [|[k0 x0] d0] eqn:Ed; [contradiction|]. rewrite <- Ed in *.
  assert (H0 : exists s, k0 = String "$" s).
  { rewrite Ed in Hkeys. inversion Hkeys as [|? ? Hk0 _]; subst.
    destruct k0 as [|c s]; [discriminate Hk0|].
    rewrite index_key_cons in Hk0. apply Ascii.eqb_eq in Hk0. subst c. now exists s. }
  destruct H0 as [s0 ->]. cbn [first_char bind].
  change (Ascii.eqb "$" "$") with true. cbn iota.
  rewrite (any_first_char_none _ _ Hdollar), Hidx. cbn [bind].
  assert (Hpos : 0 < length d) by (rewrite Ed; cbn; lia).
  assert (Hmin : list_min idx = 0%Z).
  { destruct idx as [|a idx']; [cbn in Hlen; lia|]. unfold list_min.
    destruct (fold_min_spec idx' a) as [Hin Hle].
    apply Hrange in Hin. assert (H0 : In 0%Z (a :: idx')) by (apply Hrange; lia).
    specialize (Hle _ H0). lia. }
  assert (Hmax : list_max idx = (Z.of_nat (length idx) - 1)%Z).
  { destruct idx as [|a idx'] eqn:Ei; [cbn in Hlen; lia|]. rewrite <- Ei in *.
    rewrite Hlen. rewrite Ei. unfold list_max. rewrite Ei in Hrange.
    destruct (fold_max_spec idx' a) as [Hin Hle].
    apply Hrange in Hin.
    assert (H0 : In (Z.of_nat (length d) - 1)%Z (a :: idx')) by (apply Hrange; lia).
    specialize (Hle _ H0). lia. }
  rewrite Hmin, Hmax, !Z.eqb_refl. cbn [negb orb].
  destruct (fill_list_leaves prefix d idx (repeat VNone (length idx)) Hidx)
    as [l [Hfill [Hl [Hval _]]]]; try assumption.
  { intros i Hi. rewrite repeat_length, Hlen. now apply Hrange. }
  exists l. rewrite Hfill. cbn [bind]. rewrite repeat_length, Hlen in Hl.
  repeat split; assumption.
Qed.


End ListBranch.

(* ================================================================= *)
(** ** Prefix conflicts under an index piece *)

Section IndexedPrefixes.

Import PyStr.

Lemma lacks_key_text (c : ascii) (p : list string) :
  Ascii.eqb c "." = false ->
  lacks c (key_text p) <-> Forall (lacks c) p.
Proof.
  intros Hc. unfold key_text. induction p as [|x p IH].
  - split; [constructor | intros _; apply lacks_nil].
  - destruct p as [|y p].
    + cbn [join]. split; [intros H; now repeat constructor | now inversion 1].
    + change (join "." (x :: y :: p)) with (x ++ String "." (join "." (y :: p))).
      rewrite lacks_append, lacks_cons, IH. split.
      * intros [Hx [_ Hp]]. now constructor.
      * inversion 1; subst. repeat split; try assumption.
        intros <-. discriminate Hc.
Qed.

(** A key with a dollar sign anywhere has a piece that is not an
    identifier, also after it is stripped. *)
Lemma dollar_key_refused (k : string) :
  contains "$" k = true -> forallb isidentifier (split "." (strip k)) = false.
Proof.
  intros H. destruct (forallb isidentifier (split "." (strip k))) eqn:E; [|reflexivity].
  assert (F : Forall (fun piece => isidentifier piece = true) (split "." (strip k))).
  { apply Forall_forall. intros x Hx. rewrite forallb_forall in E. now apply E. }
  pose proof (key_text_lacks "$" _ eq_refl F) as L.
  unfold key_text in L. rewrite (join_split "." (strip k)) in L.
  apply lacks_strip in L; [|reflexivity].
  unfold lacks in L. congruence.
Qed.

Lemma index_piece_in_key (p : list string) :
  Exists (fun piece => startswith "$" piece = true) p ->
  contains "$" (key_text p) = true.
Proof.
  intros H. destruct (contains "$" (key_text p)) eqn:E; [reflexivity|].
  apply (lacks_key_text "$" p eq_refl) in E.
  apply Exists_exists in H. destruct H as [piece [Hin Hp]].
  rewrite Forall_forall in E. specialize (E piece Hin).
  apply startswith_cons in Hp. destruct Hp as [s [-> _]].
  apply lacks_cons in E. destruct E as [E _]. now contradiction E.
Qed.

(** A first line whose key has a dollar sign stops the decode. *)
Lemma dollar_key_first_line (k v : string) (post : list string) :
  contains "$" k = true -> lacks ":" k ->
  Forall (lacks newline) ((k ++ String ":" v) :: post) ->
  loads_python (document ((k ++ String ":" v) :: post)) =
  Raise (STCParseError (InvalidKeySegment_identifier (strip k)) (Some 1)).
Proof.
  intros Hd Hk Hl.
  apply (loads_raises_at [] post (k ++ String ":" v) initial_scan).
  - exact Hl.
  - apply (strip_with_colon (document ((k ++ String ":" v) :: post))).
    apply (document_has_colon _ k v). now left.
  - reflexivity.
  - rewrite (loads_line_assign _ k v initial_scan eq_refl Hk). unfold assign.
    unfold parse_key. rewrite parse_key_loop_closed, (dollar_key_refused k Hd).
    reflexivity.
Qed.

(** C6: a pair of assignments whose shorter key path has an index piece (a
    piece beginning with a dollar sign, as in [a.$0] and [a.$0.b]) is not
    refused with the leaf/container conflict error.  In either order the
    decode stops at line 1 with the invalid-key error of [parse_key], which
    lets no such piece through, although [fill_in_value], handed the two
    paths, reports the conflict the claim describes. *)
Theorem C6_index_prefix_pair_refused :
  forall (rust_loads : option (string -> result pyobj))
         (P Q : list string) (v1 v2 : string),
    Exists (fun piece => startswith "$" piece = true) P ->
    Forall (fun piece => lacks ":" piece /\ lacks newline piece) (P ++ Q) ->
    lacks newline v1 -> lacks newline v2 ->
    loads rust_loads (document [assignment P v1; assignment (P ++ Q) v2]) "python" =
    Raise (STCParseError (InvalidKeySegment_identifier (strip (key_text P))) (Some 1)) /\
    loads rust_loads (document [assignment (P ++ Q) v2; assignment P v1]) "python" =
    Raise (STCParseError (InvalidKeySegment_identifier (strip (key_text (P ++ Q))))
             (Some 1)) /\
    (forall (x1 x2 : pyobj) (parsed parsed' : dict),
       Q <> [] -> is_dict x1 = false ->
       fill_in_value P x1 parsed = Return parsed' ->
       fill_in_value (P ++ Q) x2 parsed' =
       Raise (STCParseError (ConflictingContainerAndLeaf (key_text P)) None)).
Proof.
  intros rust_loads P Q v1 v2 Hi Hpieces Hv1 Hv2.
  assert (HP : P <> []) by (intros ->; inversion Hi).
  assert (Hc : forall c, (c = ":"%char \/ c = newline) -> Forall (lacks c) (P ++ Q)).
  { intros c Hcase. apply Forall_forall. intros x Hx.
    rewrite Forall_forall in Hpieces. destruct (Hpieces x Hx) as [H1 H2].
    now destruct Hcase as [-> | ->]. }
  assert (Hkey : forall c, (c = ":"%char \/ c = newline) ->
                           lacks c (key_text P) /\ lacks c (key_text (P ++ Q))).
  { intros c Hcase.
    assert (Hdot : Ascii.eqb c "." = false) by (destruct Hcase as [-> | ->]; reflexivity).
    pose proof (Hc c Hcase) as F. split; apply (lacks_key_text c _ Hdot); [|exact F].
    apply Forall_app in F. apply F. }
  destruct (Hkey ":"%char (or_introl eq_refl)) as [HcP HcPQ].
  destruct (Hkey newline (or_intror eq_refl)) as [HnP HnPQ].
  assert (Hline : forall p v, lacks newline (key_text p) -> lacks newline v ->
                              lacks newline (key_text p ++ String ":" v)).
  { intros p v Hp Hv. apply lacks_append. split; [exact Hp|].
    apply lacks_cons. split; [discriminate | exact Hv]. }
  change (loads rust_loads ?d "python") with (loads_python d).
  unfold assignment. change (":" ++ ?v) with (String ":" v).
  split; [|split].
  - apply dollar_key_first_line; [now apply index_piece_in_key | exact HcP|].
    repeat constructor; now apply Hline.
  - apply dollar_key_first_line; [|exact HcPQ|].
    + apply index_piece_in_key, Exists_app. now left.
    + repeat constructor; now apply Hline.
  - intros x1 x2 parsed parsed' HQ Hx1 Hfill.
    apply (fill_in_value_leaf P Q x2 x1 parsed' HP HQ). split; [|exact Hx1].
    exact (fill_in_value_sets P x1 parsed parsed' HP Hfill).
Qed.

End IndexedPrefixes.

(* ================================================================= *)
(** ** Empty string blocks *)

Section EmptyBlocks.

Import PyStr.

Lemma loads_line_close_empty_padded (f n : nat) (ws : string) (path : list string)
    (parsed : dict) :
  all_chars isspace ws = true ->
  loads_line n (backticks f ++ ws) (in_block f "" path parsed) =
  Raise (STCParseError MalformedEmptyStringBlock (Some (n + 1))).
Proof.
  intros Hws. unfold loads_line, in_block.
  cbn [in_a_string negb bt_count fence_of bind string_value string_key_path].
  rewrite Nat2Z.id, rstrip_backticks_append. unfold rstrip at 1.
  now rewrite (rstrip_by_all _ _ Hws), append_nil_r, String.eqb_refl.
Qed.

Lemma loads_line_blank_content (f n : nat) (path : list string) (parsed : dict) :
  3 <= f ->
  loads_line n "" (in_block f "" path parsed) = Return (in_block f nl path parsed).
Proof.
  intros Hf. rewrite loads_line_content; [reflexivity|].
  destruct f; [lia | discriminate].
Qed.

Lemma loads_line_fence (n f : nat) (k pad extra : string) (path : list string)
    (st : scan) :
  in_a_string st = false -> lacks ":" k -> 3 <= f ->
  parse_key (strip k) (Some (n + 1)) = Return path ->
  all_chars isspace pad = true -> startswith "`" extra = false ->
  loads_line n (k ++ String ":" (pad ++ backticks f ++ extra)) st =
  Return (in_block f "" path (parsed st)).
Proof.
  intros Hst Hk Hf Hp Hpad Hextra.
  rewrite (loads_line_assign n k _ st Hst Hk).
  now apply assign_fence.
Qed.

Lemma dict_get_finalized (k : string) (d : dict) :
  dict_get k (map (fun kx : string * pyobj =>
                     let '(k, x) := kx in
                     (k, match x with
                         | VDict _ => finalized x
                         | VEmpty e => EmptyObject_value e
                         | _ => x
                         end)) d) =
  match dict_get k d with
  | Some (VDict c) => Some (finalized (VDict c))
  | Some (VEmpty e) => Some (EmptyObject_value e)
  | Some x => Some x
  | None => None
  end.
Proof.
  induction d as [|[k' x] d IH]; [reflexivity|].
  cbn [map dict_get]. destruct (String.eqb k k'); [|exact IH].
  now destruct x.
Qed.

(** Finalization leaves a string where it is. *)
Lemma lookup_finalized_str (path : list string) :
  forall (d : dict) (s : string),
    path <> [] -> lookup path (VDict d) = Some (VStr s) ->
    lookup path (finalized (VDict d)) = Some (VStr s).
Proof.
  induction path as [|k rest IH]; intros d s Hne H; [contradiction|].
  cbn [finalized lookup] in *. rewrite dict_get_finalized.
  destruct (dict_get k d) as [x|]; [|discriminate H].
  destruct rest as [|k' rest].
  - cbn [lookup] in H. injection H as ->. reflexivity.
  - destruct x as [| | | | | | |c]; try discriminate H.
    apply IH; [discriminate | exact H].
Qed.

(** C7: the rule on empty string blocks, for every string block: any key
    path the decoder reads, with blanks around the key, any fence of
    [f >= 3] backticks, text after the opening fence, blanks after the
    closing fence, and any lines [pre] before the block that the scanner
    accepts and lines [post] after it.  When the closing fence follows the
    opening line at once, the decode stops at the closing line with the
    empty-string-block error.  When exactly one blank line stands between
    them, the block assigns the empty string: if the path is still free,
    and the rest of the document is accepted, the decode succeeds and holds
    the empty string at the path. *)
Theorem C7_empty_string_block :
  forall (rust_loads : option (string -> result pyobj))
         (pre post : list string) (k pad extra ws : string) (P : list string)
         (f : nat) (st : scan),
    Forall (lacks newline) (pre ++ post) ->
    loads_loop 0 pre initial_scan = Return st -> in_a_string st = false ->
    identifier_path P -> strip k = key_text P ->
    lacks ":" k -> lacks newline k ->
    3 <= f ->
    all_chars isspace pad = true -> lacks newline pad ->
    startswith "`" extra = false -> lacks newline extra ->
    all_chars isspace ws = true -> lacks newline ws ->
    loads rust_loads
      (document (pre ++ (k ++ ":" ++ pad ++ backticks f ++ extra)
                      :: (backticks f ++ ws) :: post)) "python" =
    Raise (STCParseError MalformedEmptyStringBlock (Some (length pre + 2))) /\
    (forall (parsed' : dict) (st' : scan),
       fill_in_value P (VStr "") (parsed st) = Return parsed' ->
       loads_loop (length pre + 3) post (between parsed') = Return st' ->
       in_a_string st' = false ->
       loads rust_loads
         (document (pre ++ (k ++ ":" ++ pad ++ backticks f ++ extra)
                         :: "" :: (backticks f ++ ws) :: post)) "python" =
       Return (finalized (VDict (parsed st'))) /\
       lookup P (finalized (VDict (parsed st'))) = Some (VStr "")).
Proof.
  intros rust_loads pre post k pad extra ws P f st Hl Hpre Hst HP Hk Hkc Hkn Hf
         Hpad Hpadn Hextra Hextran Hws Hwsn.
  change (loads rust_loads ?d "python") with (loads_python d).
  change (k ++ ":" ++ pad ++ backticks f ++ extra)
    with (k ++ String ":" (pad ++ backticks f ++ extra)).
  set (opening := k ++ String ":" (pad ++ backticks f ++ extra)).
  set (closing := backticks f ++ ws).
  apply Forall_app in Hl. destruct Hl as [Hlpre Hlpost].
  assert (Hbt : lacks newline (backticks f)) by (apply lacks_repeat_char; discriminate).
  assert (Hopening : lacks newline opening).
  { unfold opening. apply lacks_append. split; [exact Hkn|].
    apply lacks_cons. split; [discriminate|].
    apply lacks_append. split; [exact Hpadn|].
    apply lacks_append. now split. }
  assert (Hclosing : lacks newline closing) by (apply lacks_append; now split).
  assert (Hkey : forall n, parse_key (strip k) (Some n) = Return P).
  { intros n. rewrite Hk, <- (strip_key_text P (proj2 HP)). now apply parse_key_text. }
  assert (Hopen : forall n, loads_line n opening st = Return (in_block f "" P (parsed st))).
  { intros n. unfold opening. now apply loads_line_fence. }
  split.
  - replace (pre ++ opening :: closing :: post)%list
      with ((pre ++ [opening]) ++ closing :: post)%list
      by (rewrite <- app_assoc; reflexivity).
    replace (length pre + 2) with (length (pre ++ [opening]) + 1)
      by (rewrite length_app; cbn [length]; lia).
    apply (loads_raises_at _ post closing (in_block f "" P (parsed st))).
    + rewrite Forall_app. split; [rewrite Forall_app; now repeat constructor|].
      now constructor.
    + apply (strip_with_colon (document ((pre ++ [opening]) ++ closing :: post))).
      apply (document_has_colon _ k (pad ++ backticks f ++ extra)).
      apply in_or_app. left. apply in_or_app. right. now left.
    + rewrite loads_loop_app, Hpre. cbn [bind loads_loop]. now rewrite Hopen.
    + now apply loads_line_close_empty_padded.
  - intros parsed' st' Hfill Hpost Hs'.
    assert (Hinv : scan_invariant st')
      by (refine (loads_loop_invariant _ _ _ _ _ Hpost); split;
          [| discriminate];
          refine (fill_in_value_scanned P (VStr "") _ _ (proj2 HP) eq_refl _ Hfill);
          exact (proj1 (loads_loop_invariant _ _ _ _ initial_scan_invariant Hpre))).
    assert (Hlook : lookup P (VDict (parsed st')) = Some (VStr "")).
    { pose proof (fill_in_value_sets P _ _ _ (proj1 HP) Hfill) as H0.
      destruct (loads_loop_keeps post _ _ _ Hpost P _ H0) as [x' [Hx' Hper]].
      unfold persists in Hper. cbn [is_dict] in Hper. now subst x'. }
    split; [|exact (lookup_finalized_str P _ _ (proj1 HP) Hlook)].
    rewrite (loads_python_document _ k (pad ++ backticks f ++ extra)).
    + rewrite loads_loop_app, Hpre. cbn [bind loads_loop]. rewrite Hopen. cbn [bind].
      rewrite (loads_line_blank_content f _ P _ Hf). cbn [bind].
      unfold closing. rewrite loads_line_close_padded by (discriminate || assumption).
      change (drop_last nl) with "". rewrite Hfill. cbn [bind].
      replace (S (S (S (0 + length pre)))) with (length pre + 3) by lia.
      rewrite Hpost. cbn [bind]. rewrite Hs'.
      exact (finalize_names_only _ (scanned_names_only _ (proj1 Hinv)) _ "" eq_refl).
    + rewrite Forall_app. split; [exact Hlpre|]. now repeat constructor.
    + apply in_or_app. right. now left.
Qed.

End EmptyBlocks.

End EnumValues.

(* ================================================================= *)
(** ** Instances *)

(** The theorems above at concrete inputs.  The enum values are empty, as
    they are when the module is loaded, unless an instance says otherwise. *)

Section Instances.

Import PyStr.

(** C2 (as stated, refuted): the content [``` ] (three backticks and a
    blank) has no line made of backticks only, yet with a fence of three
    backticks its line closes the block at once and the decode fails. *)
Lemma C2_counterexample :
  3 <= 3 /\
  (forall l, In l (content_lines "``` ") ->
             ~ (backtick_only l = true /\ 3 <= String.length l)) /\
  loads [] [] None (fenced 3 "``` ") "python" <> Return (VDict [("a", VStr "``` ")]) /\
  loads [] [] None (fenced 3 "``` ") "python" =
  Raise (STCParseError MalformedEmptyStringBlock (Some 2)).
Proof.
  split; [lia|]. split; [|split; [discriminate | reflexivity]].
  intros l [<-|[]] [H _]. discriminate H.
Qed.

Lemma C2_string_block_roundtrip_witness :
  loads [] [] None (fenced 5 "alpha
````
beta") "python" =
  Return (VDict [("a", VStr "alpha
````
beta")]).
Proof.
  apply (C2_string_block_roundtrip [] [] None _ 5); [lia|].
  intros l [<-|[<-|[<-|[]]]] [H1 H2]; vm_compute in H1, H2;
    first [discriminate H1 | lia].
Defined.

Lemma C3_duplicate_raises_foreign_exception_witness :
  loads [] [] None (document ["a: 1"; "a: 2"]) "python" = Raise (UnboundLocalError "piece") /\
  loads [] [] None (document ["a: ```"; "x"; "```"; "b: 1"; "a: 2"]) "python" =
  Raise (UnboundLocalError "piece").
Proof.
  assert (Hid : identifier_path ["a"]).
  { split; [discriminate|]. constructor; [reflexivity | constructor]. }
  assert (Hacc : forall lines st,
             loads_loop 0 lines initial_scan = Return st ->
             in_a_string st = false -> accepted lines).
  { intros lines st H Hs. now exists st. }
  assert (H1 : assigns ["a: 1"] ["a"] (VInt 1)).
  { apply (assigns_scalar ["a"] " 1" (VInt 1) Hid).
    split; [reflexivity | intros ln; reflexivity]. }
  assert (H2 : assigns ["a: 2"] ["a"] (VInt 2)).
  { apply (assigns_scalar ["a"] " 2" (VInt 2) Hid).
    split; [reflexivity | intros ln; reflexivity]. }
  assert (Hb : assigns ["a: ```"; "x"; "```"] ["a"] (VStr "x")).
  { apply (assigns_block ["a"] 3 " " "" "x" Hid).
    - lia.
    - reflexivity.
    - reflexivity.
    - reflexivity.
    - reflexivity.
    - intros l [<-|[]]. discriminate. }
  destruct (C3_duplicate_raises_foreign_exception [] [] None) as [H _].
  split.
  - apply (H [] [] [] ["a: 1"] ["a: 2"] "a" (VInt 1) (VInt 2) H1 H2).
    + constructor.
    + eapply Hacc; reflexivity.
    + eapply Hacc; reflexivity.
  - apply (H [] ["b: 1"] [] ["a: ```"; "x"; "```"] ["a: 2"] "a" (VStr "x") (VInt 2) Hb H2).
    + repeat constructor.
    + eapply Hacc; reflexivity.
    + eapply Hacc; reflexivity.
Defined.

(** C5 (as stated, refuted): the token [`123`] is not classified as a
    string-block start; [parse_value] raises on it. *)
Lemma C5_counterexample :
  ~ (exists n, parse_value "`123`" (Some 1) = Return (n, true)) /\
  parse_value "`123`" (Some 1) =
  Raise (STCParseError (InvalidValueLiteral "`123`") (Some 1)).
Proof. split; [intros [n H]; discriminate H | reflexivity]. Qed.

Lemma C5_backtick_token_refused_witness :
  parse_value "`123`" (Some 1) =
  Raise (STCParseError (InvalidValueLiteral "`123`") (Some 1)) /\
  loads [] [] None "a: `123`" "python" =
  Raise (STCParseError (InvalidValueLiteral "`123`") (Some 1)).
Proof.
  assert (H := C5_backtick_token_refused [] [] None "`123`").
  destruct H as [Hv Hd]; try reflexivity; try discriminate.
  split; [apply Hv | apply Hd; reflexivity].
Defined.

Lemma X18_prefix_conflict_witness :
  loads [] [] None (document ["a.b: 1"; "a.b.c: 2"]) "python" =
  Raise (STCParseError (ConflictingContainerAndLeaf "a.b") None) /\
  loads [] [] None (document ["a.b.c: 2"; "a.b: 1"]) "python" =
  Raise (STCParseError (ConflictingContainerAndLeaf_direct "a.b") None) /\
  loads [] [] None (document ["a: ```"; "x"; "```"; "a.b: 1"]) "python" =
  Raise (STCParseError (ConflictingContainerAndLeaf "a") None).
Proof.
  assert (Hid : forall p, p <> [] -> forallb isidentifier p = true -> identifier_path p).
  { intros p Hne H. split; [exact Hne|]. apply Forall_forall. intros x Hx.
    rewrite forallb_forall in H. now apply H. }
  assert (Hacc : forall lines st,
             loads_loop 0 lines initial_scan = Return st ->
             in_a_string st = false -> accepted lines).
  { intros lines st H Hs. now exists st. }
  assert (Hab : assigns ["a.b: 1"] ["a"; "b"] (VInt 1)).
  { apply (assigns_scalar ["a"; "b"] " 1" (VInt 1)).
    - apply Hid; [discriminate | reflexivity].
    - split; [reflexivity | intros ln; reflexivity]. }
  assert (Habc : assigns ["a.b.c: 2"] ["a"; "b"; "c"] (VInt 2)).
  { apply (assigns_scalar ["a"; "b"; "c"] " 2" (VInt 2)).
    - apply Hid; [discriminate | reflexivity].
    - split; [reflexivity | intros ln; reflexivity]. }
  assert (Ha : assigns ["a: ```"; "x"; "```"] ["a"] (VStr "x")).
  { apply (assigns_block ["a"] 3 " " "" "x").
    - apply Hid; [discriminate | reflexivity].
    - lia.
    - reflexivity.
    - reflexivity.
    - reflexivity.
    - reflexivity.
    - intros l [<-|[]]. discriminate. }
  destruct (X18_prefix_conflict [] [] None [] [] [] ["a.b: 1"] ["a.b.c: 2"]
              ["a"; "b"] ["c"] (VInt 1) (VInt 2) Hab Habc) as [H1 H2];
    [discriminate | constructor | eapply Hacc; reflexivity |].
  destruct (X18_prefix_conflict [] [] None [] [] [] ["a: ```"; "x"; "```"] ["a.b: 1"]
              ["a"] ["b"] (VStr "x") (VInt 1) Ha Hab) as [H3 _];
    [discriminate | constructor | eapply Hacc; reflexivity |].
  split; [|split]; [apply H1 | apply H2 | apply H3]; eapply Hacc; reflexivity.
Defined.

Lemma C9_text_after_opening_fence_dropped_witness :
  loads [] [] None (document ["a: ```extra"; "x"; "```"]) "python" =
  Return (VDict [("a", VStr "x")]) /\
  loads [] [] None (document ["a: ```extra"; "x"; "```"]) "python" =
  loads [] [] None (document ["a: ```"; "x"; "```"]) "python".
Proof.
  destruct (C9_text_after_opening_fence_dropped [] [] None 3 "extra") as [_ [H2 H3]];
    [lia | reflexivity | reflexivity |].
  split.
  - apply (H3 "x"). intros l [<-|[]]. discriminate.
  - apply (H2 (document ["x"; "```"])).
Defined.

Lemma C6_index_prefix_pair_refused_witness :
  loads [] [] None (document ["a.$0: 1"; "a.$0.b: 2"]) "python" =
  Raise (STCParseError (InvalidKeySegment_identifier "a.$0") (Some 1)) /\
  loads [] [] None (document ["a.$0.b: 2"; "a.$0: 1"]) "python" =
  Raise (STCParseError (InvalidKeySegment_identifier "a.$0.b") (Some 1)) /\
  fill_in_value ["a"; "$0"; "b"] (VInt 2) [("a", VDict [("$0", VInt 1)])] =
  Raise (STCParseError (ConflictingContainerAndLeaf "a.$0") None).
Proof.
  destruct (C6_index_prefix_pair_refused [] [] None ["a"; "$0"] ["b"] " 1" " 2")
    as [H1 [H2 H3]].
  - apply Exists_cons_tl, Exists_cons_hd. reflexivity.
  - repeat constructor.
  - reflexivity.
  - reflexivity.
  - split; [exact H1|]. split; [exact H2|].
    apply (H3 (VInt 1) (VInt 2) []); [discriminate | reflexivity | reflexivity].
Defined.

Lemma C7_empty_string_block_witness :
  (loads [] [] None (document ["a: ```"; "```"]) "python" =
   Raise (STCParseError MalformedEmptyStringBlock (Some 2)) /\
   loads [] [] None (document ["a: ```"; ""; "```"]) "python" =
   Return (VDict [("a", VStr "")])) /\
  (loads [] [] None (document ["x: 1"; " b.c : ````md"; "```` "; "y: 2"]) "python" =
   Raise (STCParseError MalformedEmptyStringBlock (Some 3)) /\
   loads [] [] None (document ["x: 1"; " b.c : ````md"; ""; "```` "; "y: 2"]) "python" =
   Return (VDict [("x", VInt 1); ("b", VDict [("c", VStr "")]); ("y", VInt 2)])).
Proof.
  split.
  - destruct (C7_empty_string_block [] [] None [] [] "a" " " "" "" ["a"] 3 initial_scan)
      as [H1 H2];
      [ constructor | reflexivity | reflexivity
      | split; [discriminate | repeat constructor]
      | reflexivity | reflexivity | reflexivity | lia
      | reflexivity | reflexivity | reflexivity | reflexivity
      | reflexivity | reflexivity | ].
    split; [exact H1|].
    destruct (H2 [("a", VStr "")] (between [("a", VStr "")])) as [H _];
      [reflexivity | reflexivity | reflexivity | exact H].
  - destruct (C7_empty_string_block [] [] None ["x: 1"] ["y: 2"] " b.c " " " "md" " "
                ["b"; "c"] 4 (between [("x", VInt 1)]))
      as [H1 H2];
      [ repeat constructor | reflexivity | reflexivity
      | split; [discriminate | repeat constructor]
      | reflexivity | reflexivity | reflexivity | lia
      | reflexivity | reflexivity | reflexivity | reflexivity
      | reflexivity | reflexivity | ].
    split; [exact H1|].
    destruct (H2 [("x", VInt 1); ("b", VDict [("c", VStr "")])]
                (between [("x", VInt 1); ("b", VDict [("c", VStr "")]); ("y", VInt 2)]))
      as [H _]; [reflexivity | reflexivity | reflexivity | exact H].
Defined.

Lemma C10_numbers_are_int_then_float_witness :
  parse_value "1_000" (Some 1) = Return (VInt 1000, false) /\
  parse_value "inf" (Some 1) = Return (VFloat (PyNum.FInf false), false) /\
  PyNum.int "1_000" = Some 1000%Z /\
  (PyNum.int "inf" = None /\ PyNum.float "inf" = Some (PyNum.FInf false)).
Proof.
  destruct (C10_numbers_are_int_then_float [] []) as [H1 [H2 [H3 [H4 _]]]].
  split; [|split; [|split]].
  - apply H1. reflexivity.
  - apply H2; reflexivity.
  - apply (H3 "1_000" (Some 1)). reflexivity.
  - apply (H4 "inf" (Some 1)). reflexivity.
Defined.

Lemma X7_finalize_mixed_keys_witness :
  finalize_dict [] [] [("b", VInt 2); ("c", VDict [("$5", VInt 0)]); ("$0", VInt 1)] "a" =
  Raise (STCParseError (MixedListDictKeys "a") None).
Proof.
  apply X7_finalize_mixed_keys.
  - repeat constructor; discriminate.
  - apply Exists_cons_tl, Exists_cons_tl, Exists_cons_hd. reflexivity.
  - apply Exists_cons_hd. reflexivity.
Defined.

Lemma X9_finalize_names_only_witness :
  finalize_dict [VInt 7] [("k", VStr "v")]
    [("a", VDict [("b", VInt 1); ("c", VDict [("d", VEmpty EMPTY_LIST)])]);
     ("z", VEmpty EMPTY_DICT); ("s", VStr "x")] "" =
  Return (VDict
            [("a", VDict [("b", VInt 1); ("c", VDict [("d", VList [VInt 7])])]);
             ("z", VDict [("k", VStr "v")]); ("s", VStr "x")]).
Proof. apply X9_finalize_names_only. reflexivity. Defined.

Lemma X10_blank_document_witness :
  loads [] [] None "  
	
 " "python" = Return (VDict []).
Proof. apply X10_blank_document. reflexivity. Defined.

Lemma X12_missing_colon_witness :
  loads [] [] None (document ["a: 1"; ""; "b = 2"; "c: 3"]) "python" =
  Raise (STCParseError (MissingColon "b = 2") (Some 3)).
Proof.
  apply (X12_missing_colon [] [] None ["a: 1"; ""] ["c: 3"] "b = 2").
  - repeat constructor.
  - discriminate.
  - eexists. split; reflexivity.
  - discriminate.
  - reflexivity.
Defined.

Lemma X15_invalid_key_line_witness :
  loads [] [] None (document ["x: 1"; " a..b : 2"]) "python" =
  Raise (STCParseError (InvalidKeySegment_identifier "a..b") (Some 2)) /\
  loads [] [] None (document ["a.$1b: 1"]) "python" =
  Raise (STCParseError (InvalidKeySegment_identifier "a.$1b") (Some 1)).
Proof.
  split.
  - apply (X15_invalid_key_line [] [] None ["x: 1"] [] " a..b " " 2").
    + repeat constructor.
    + eexists. split; reflexivity.
    + reflexivity.
    + reflexivity.
  - apply (X15_invalid_key_line [] [] None [] [] "a.$1b" " 1").
    + repeat constructor.
    + eexists. split; reflexivity.
    + reflexivity.
    + reflexivity.
Defined.




Lemma X17_python_no_list_errors_witness :
  list_error (STCParseError (InvalidKeySegment_identifier "a.$1") (Some 1)) = false.
Proof.
  apply (X17_python_no_list_errors [] [] None (document ["a.$1: 1"; "a.b: 2"])). reflexivity.
Defined.

Lemma X11_flat_document_witness :
  loads [] [] None (document ["b: 1"; "a:  `true` "; "e: []"; "f: 2.5"]) "python" =
  Return (VDict [("b", VInt 1); ("a", VBool true); ("e", VList []);
                 ("f", VFloat (PyNum.FDec false 25 (-1)))]) /\
  loads [VInt 1] [("k", VInt 1)] None (document ["x: []"; "y: {}"]) "python" =
  Return (VDict [("x", VList [VInt 1]); ("y", VDict [("k", VInt 1)])]).
Proof.
  split.
  - apply (X11_flat_document [] [] None
             [("b", " 1", VInt 1); ("a", "  `true` ", VBool true);
              ("e", " []", VEmpty EMPTY_LIST);
              ("f", " 2.5", VFloat (PyNum.FDec false 25 (-1)))]).
    + repeat constructor; cbn; intuition discriminate.
    + repeat constructor; intros ln; reflexivity.
  - apply (X11_flat_document [VInt 1] [("k", VInt 1)] None
             [("x", " []", VEmpty EMPTY_LIST); ("y", " {}", VEmpty EMPTY_DICT)]).
    + repeat constructor; cbn; intuition discriminate.
    + repeat constructor; intros ln; reflexivity.
Defined.

Lemma X8_finalize_list_witness :
  exists l,
    finalize_dict [] [] [("$2", VBool false); ("$0", VInt 10); ("$1", VEmpty EMPTY_LIST)] "a" =
    Return (VList l) /\
    length l = 3 /\
    nth_error l 0 = Some (VInt 10) /\ nth_error l 1 = Some (VList []) /\
    nth_error l 2 = Some (VBool false).
Proof.
  destruct (X8_finalize_list [] []
              [("$2", VBool false); ("$0", VInt 10); ("$1", VEmpty EMPTY_LIST)] "a"
              [2; 0; 1]%Z) as [l [H [Hl Hv]]].
  - discriminate.
  - repeat constructor.
  - reflexivity.
  - apply (perm_trans (l' := [0; 2; 1]%Z)); [apply perm_swap|].
    apply perm_skip, perm_swap.
  - repeat constructor.
  - exists l. split; [exact H|]. split; [exact Hl|]. repeat split.
    + apply (Hv "$0" (VInt 10) 0%Z); [right; now left | reflexivity].
    + apply (Hv "$1" (VEmpty EMPTY_LIST) 1%Z); [right; right; now left | reflexivity].
    + apply (Hv "$2" (VBool false) 2%Z); [now left | reflexivity].
Defined.

End Instances.
